(** * CVSCommon: the declarative configuration schema of [cvs/common/config.hpp]

    A shallow embedding of [cvs::common::CVSConfig]: the seven
    [FieldDescriptor] specialisations, [make(const Properties&)],
    [describe] and [describeFields], together with the part of
    [boost::property_tree::ptree] that they call.

    Conventions.
    - C++ exceptions are values of type [exception]; an expression that may
      throw has type [throws A].
    - A member function that receives [Self&] is an [action Self A]: it maps
      the instance before the call to the instance after the call paired
      with the value returned or the exception thrown.
    - A pointer to member [T Self::*pointer] is a [member Self T]. *)

From Stdlib Require Import String Ascii List ZArith Lia Bool DecimalString.
Import ListNotations.
Open Scope string_scope.

Set Implicit Arguments.
Set Warnings "-register-all".

(** ** Exceptions *)

(** The exceptions that reach [CVSConfig]: the two thrown by
    [boost::property_tree] and the [std::runtime_error] that
    [std::throw_with_nested] wraps around the exception in flight. *)
Inductive exception : Type :=
| ptree_bad_path (path : string)
| ptree_bad_data (data : string)
| with_nested (what : string) (nested : exception).

Definition throws (A : Type) : Type := (exception + A)%type.

Definition returns {A : Type} (a : A) : throws A := inr a.
Definition throw {A : Type} (e : exception) : throws A := inl e.

(** ** Pointers to members *)

(** [load p s] reads [s.*p]; [store p v s] is [s] after [s.*p = v]. *)
Record member (Self F : Type) : Type := {
  load : Self -> F;
  store : F -> Self -> Self;
  load_store : forall v s, load (store v s) = v
}.

(** [q] designates a data member other than [p]: an assignment through [p]
    is not seen through [q]. *)
Definition other_member {Self F G : Type} (p : member Self F) (q : member Self G) : Prop :=
  forall v s, load q (store p v s) = load q s.

(** ** Code acting on an instance passed by reference *)

Definition action (Self A : Type) : Type := Self -> Self * throws A.

Definition ret {Self A : Type} (a : A) : action Self A :=
  fun s => (s, returns a).

Definition bind {Self A B : Type} (m : action Self A) (k : A -> action Self B) : action Self B :=
  fun s => match m s with
           | (s', inr a) => k a s'
           | (s', inl e) => (s', throw e)
           end.

(** An expression that does not touch the instance. *)
Definition eval {Self A : Type} (r : throws A) : action Self A :=
  fun s => (s, r).

(** [config.*pointer = v]. *)
Definition assign {Self F : Type} (pointer : member Self F) (v : F) : action Self unit :=
  fun s => (store pointer v s, returns tt).

Declare Scope action_scope.
Delimit Scope action_scope with action.
Notation "x <- m ;; k" := (bind m (fun x => k))
  (at level 61, m at next level, right associativity) : action_scope.

(** ** boost::property_tree::ptree

    [Properties] is [boost::property_tree::ptree]: a node holds a string and
    an ordered sequence of (key, subtree) pairs, keys may repeat. The member
    functions below follow Boost's [ptree_implementation.hpp]. Every path
    handed over by [FieldDescriptor] is a field name produced by the
    stringification [#field_name] of a C++ identifier, so it has no
    separator and is a single key. *)
Inductive Properties : Type :=
| ptree (data : string) (children : list (string * Properties)).

Definition data_of (t : Properties) : string :=
  match t with ptree d _ => d end.

Definition children_of (t : Properties) : list (string * Properties) :=
  match t with ptree _ c => c end.

(** [Properties{}]. *)
Definition empty_Properties : Properties := ptree "" [].

Fixpoint find_key (key : string) (l : list (string * Properties)) : option Properties :=
  match l with
  | [] => None
  | (k, c) :: rest => if String.eqb k key then Some c else find_key key rest
  end.

(** [ptree.find(key)]: [Some iter->second], or [None] for [not_found()].
    Among several children with the key the first is taken (Boost leaves
    the choice open). *)
Definition find (key : string) (t : Properties) : option Properties :=
  find_key key (children_of t).

(** [get_child_optional(path)] walks the path with [find]; with a single key
    it is [find]. *)
Definition get_child_optional (path : string) (t : Properties) : option Properties :=
  find path t.

(** [get_child(path)] throws [ptree_bad_path] when no such node exists. *)
Definition get_child (path : string) (t : Properties) : throws Properties :=
  match get_child_optional path t with
  | Some c => returns c
  | None => throw (ptree_bad_path path)
  end.

(** [translator_between<std::string, T>]: [get_value] yields an empty
    optional when the string does not convert. *)
Class Translator (T : Type) : Type := {
  translate : string -> option T
}.

Section Extraction.
Context {T : Type} `{Translator T}.

(** [get_value_optional<T>()]: [tr.get_value(data())]. *)
Definition get_value_optional (t : Properties) : option T :=
  translate (data_of t).

(** [get_value<T>()] throws [ptree_bad_data] when the conversion fails. *)
Definition get_value (t : Properties) : throws T :=
  match get_value_optional t with
  | Some v => returns v
  | None => throw (ptree_bad_data (data_of t))
  end.

(** [get<T>(path)]: [get_child(path).get_value<T>()]. *)
Definition get (path : string) (t : Properties) : throws T :=
  match get_child path t with
  | inr c => get_value c
  | inl e => throw e
  end.

(** [get_optional<T>(path)]: the child's [get_value_optional<T>()] when
    the child exists, an empty optional otherwise (Boost: "if
    (optional<self_type&> node = get_child_optional(path)) return
    node->get_value_optional(); return boost::null"). A leaf that does not
    convert gives an empty optional, not an exception. *)
Definition get_optional (path : string) (t : Properties) : option T :=
  match get_child_optional path t with
  | Some c => get_value_optional c
  | None => None
  end.

(** [get(path, default_value)]:
    [get_optional<T>(path).get_value_or(default_value)] (Boost: "return
    default_value if the node doesn't exist or conversion fails"). *)
Definition get_or (path : string) (default_value : T) (t : Properties) : T :=
  match get_optional path t with
  | Some v => v
  | None => default_value
  end.

(** The loop [for (auto& iter : container)
    values.push_back(iter.second.get_value<T>());] started with the
    elements [values] already pushed. *)
Fixpoint push_back_values (container : list (string * Properties)) (values : list T)
  : throws (list T) :=
  match container with
  | [] => returns values
  | (_, second) :: rest =>
      match get_value second with
      | inr v => push_back_values rest (values ++ [v])
      | inl e => throw e
      end
  end.
End Extraction.

(** ** fmt::format *)

(** A replacement field [{: <n}]: the argument, left aligned, filled with
    spaces up to the width [n]; a longer argument is not cut. The width
    is counted in characters of the string, as [fmt] does for ASCII text. *)
Definition pad_left_aligned (n : nat) (s : string) : string :=
  s ++ string_of_list_ascii (repeat " "%char (n - String.length s)).

(** [fmt::format] of a default value of type [T]. *)
Class Formattable (T : Type) : Type := {
  format : T -> string
}.

(** [fmt::format(description_format, prefix, name, base_type, optional,
    default, description)] with
    [description_format = "{}{: <10} {: <10} {: <9} {: <10} Description: {}"]. *)
Definition description_format
  (prefix name base_type optional default description : string) : string :=
  prefix ++ pad_left_aligned 10 name ++ " " ++ pad_left_aligned 10 base_type ++ " "
    ++ pad_left_aligned 9 optional ++ " " ++ pad_left_aligned 10 default
    ++ " Description: " ++ description.

Definition optional_str : string := "Optional".
Definition default_str : string := "Default: ".

(** [std::string_view::data()] used as a C string: the characters before
    the first NUL. *)
Fixpoint c_str (s : string) : string :=
  match s with
  | String c rest => if Ascii.eqb c zero then EmptyString else String c (c_str rest)
  | EmptyString => EmptyString
  end.

(** The newline character of the C++ literals ["\n"]. *)
Definition nl : string := String (ascii_of_nat 10) EmptyString.

(** ** CVSConfig *)

(** [BaseFieldDescriptor]: the four virtual member functions. *)
Record BaseFieldDescriptor (Self : Type) : Type := {
  has_default : bool;
  is_optional : bool;
  set : Self -> Properties -> Self * throws unit;
  describe : string -> string
}.

(** A schema type [CVSConfig<ConfigType, Name, Description>]:
    [default_constructed] is the value of [Self result;] and [descriptors]
    the list returned by [descriptors()], in declaration order. *)
Record CVSConfig (Self : Type) : Type := {
  Name : string;
  Description : string;
  default_constructed : Self;
  descriptors : list (BaseFieldDescriptor Self)
}.

(** Modelled from the spec: [CVSOutcome<T>], declared in
    [cvs/common/general.hpp], which is not part of the sources at hand.
    An outcome is either a value of type [T] or a chained failure. *)
Inductive CVSOutcome (T : Type) : Type :=
| outcome_value (v : T)
| outcome_failure (e : exception).

Arguments outcome_value {T} v.
Arguments outcome_failure {T} e.

(** Modelled from the spec: [CVSOutcome<T>::value()] gives the value back
    and rethrows the chained failure of a failed outcome. *)
Definition value {T : Type} (o : CVSOutcome T) : throws T :=
  match o with
  | outcome_value v => returns v
  | outcome_failure e => throw e
  end.

(** Modelled from the spec: the macro [CVS_RETURN_WITH_NESTED] of
    [cvs/common/general.hpp]. Inside a handler it returns a failed outcome
    whose message is that of its argument and whose cause is the exception
    being handled, [in_flight]. *)
Definition CVS_RETURN_WITH_NESTED {T : Type} (what : string) (in_flight : exception)
  : CVSOutcome T :=
  outcome_failure (with_nested what in_flight).

Section Make.
Context {Self : Type}.

(** The loop [for (auto& field : descriptors()) field->set(result, data);]
    over the remaining [fields]; an exception leaves the loop. *)
Fixpoint set_fields (fields : list (BaseFieldDescriptor Self)) (data : Properties)
  : action Self unit :=
  match fields with
  | [] => ret tt
  | field :: rest =>
      (_ <- (fun result => set field result data) ;; set_fields rest data)%action
  end.

(** [make(const Properties& data)]. *)
Definition make (cfg : CVSConfig Self) (data : Properties) : CVSOutcome Self :=
  match set_fields (descriptors cfg) data (default_constructed cfg) with
  | (result, inr _) => outcome_value result
  | (_, inl e) => CVS_RETURN_WITH_NESTED ("Can't init config " ++ Name cfg) e
  end.

(** The loop of [describeFields] with [result] accumulated so far:
    [result += prefix.data() + f->describe(" ")]. *)
Fixpoint describe_loop (fields : list (BaseFieldDescriptor Self)) (prefix result : string)
  : string :=
  match fields with
  | [] => result
  | f :: rest => describe_loop rest prefix (result ++ (c_str prefix ++ describe f " "))
  end.

(** [describeFields(prefix)]. *)
Definition describeFields (cfg : CVSConfig Self) (prefix : string) : string :=
  describe_loop (descriptors cfg) prefix "".

(** [describe()] of the schema type. *)
Definition describe_config (cfg : CVSConfig Self) : string :=
  (Name cfg ++ nl ++ "Description: " ++ Description cfg ++ nl ++ "Fields:")
    ++ describeFields cfg nl.

(** The loop that computes [can_be_default] in the nested descriptor:
    the first field with neither flag ends it with [false]. *)
Fixpoint can_be_default (fields : list (BaseFieldDescriptor Self)) : bool :=
  match fields with
  | [] => true
  | f :: rest =>
      if negb (has_default f) && negb (is_optional f) then false
      else can_be_default rest
  end.
End Make.

(** ** The seven FieldDescriptor specialisations

    The template arguments [field_name_str], [field_description],
    [field_base_type_str], [pointer] and [field_default_value] are ordinary
    arguments here; the nested variants also take the schema of the nested
    type [T], whose static members [T::descriptors()], [T::make] and
    [T::describeFields] they call. *)
Section FieldDescriptors.
Context {Self : Type}.
Variables field_name_str field_description field_base_type_str : string.

(** Simple field. *)
Definition FieldDescriptor_simple {T : Type} `{Translator T} (pointer : member Self T)
  : BaseFieldDescriptor Self :=
  {| has_default := false;
     is_optional := false;
     set := fun config ptree =>
       (v <- eval (get field_name_str ptree) ;;
        assign pointer v)%action config;
     describe := fun prefix =>
       description_format prefix field_name_str field_base_type_str "" ""
         field_description |}.

(** Field with default value. *)
Definition FieldDescriptor_default {T : Type} `{Translator T} `{Formattable T}
  (pointer : member Self T) (field_default_value : T) : BaseFieldDescriptor Self :=
  {| has_default := true;
     is_optional := false;
     set := fun config ptree =>
       assign pointer (get_or field_name_str field_default_value ptree) config;
     describe := fun prefix =>
       description_format prefix field_name_str field_base_type_str default_str
         (format field_default_value) field_description |}.

(** Optional field. *)
Definition FieldDescriptor_optional {T : Type} `{Translator T}
  (pointer : member Self (option T)) : BaseFieldDescriptor Self :=
  {| has_default := false;
     is_optional := true;
     set := fun config ptree =>
       match get_optional field_name_str ptree with
       | Some val => assign pointer (Some val) config
       | None => ret tt config
       end;
     describe := fun prefix =>
       description_format prefix field_name_str field_base_type_str optional_str ""
         field_description |}.

(** Vector field. *)
Definition FieldDescriptor_vector {T : Type} `{Translator T}
  (pointer : member Self (list T)) : BaseFieldDescriptor Self :=
  {| has_default := false;
     is_optional := true;
     set := fun config ptree =>
       (container <- eval (get_child field_name_str ptree) ;;
        values <- eval (push_back_values (children_of container) []) ;;
        assign pointer values)%action config;
     describe := fun prefix =>
       description_format prefix field_name_str field_base_type_str "" ""
         field_description |}.

(** Optional vector field. *)
Definition FieldDescriptor_optional_vector {T : Type} `{Translator T}
  (pointer : member Self (option (list T))) : BaseFieldDescriptor Self :=
  {| has_default := false;
     is_optional := true;
     set := fun config ptree =>
       match get_child_optional field_name_str ptree with
       | Some container =>
           (values <- eval (push_back_values (children_of container) []) ;;
            assign pointer (Some values))%action config
       | None => assign pointer None config
       end;
     describe := fun prefix =>
       description_format prefix field_name_str field_base_type_str optional_str ""
         field_description |}.

(** Nested config. *)
Definition FieldDescriptor_nested {T : Type} (T_config : CVSConfig T)
  (pointer : member Self T) : BaseFieldDescriptor Self :=
  {| has_default := false;
     is_optional := false;
     set := fun config ptree =>
       if can_be_default (descriptors T_config) then
         match find field_name_str ptree with
         | Some second =>
             (v <- eval (value (make T_config second)) ;;
              assign pointer v)%action config
         | None =>
             (v <- eval (value (make T_config empty_Properties)) ;;
              assign pointer v)%action config
         end
       else
         (child <- eval (get_child field_name_str ptree) ;;
          v <- eval (value (make T_config child)) ;;
          assign pointer v)%action config;
     describe := fun prefix =>
       description_format prefix field_name_str field_base_type_str "" ""
         field_description
       ++ (nl ++ prefix ++ field_name_str ++ " fields:"
             ++ describeFields T_config (nl ++ prefix ++ " ")) |}.

(** Optional nested config. *)
Definition FieldDescriptor_optional_nested {T : Type} (T_config : CVSConfig T)
  (pointer : member Self (option T)) : BaseFieldDescriptor Self :=
  {| has_default := false;
     is_optional := true;
     set := fun config ptree =>
       match find field_name_str ptree with
       | Some second =>
           (v <- eval (value (make T_config second)) ;;
            assign pointer (Some v))%action config
       | None => assign pointer None config
       end;
     describe := fun prefix =>
       description_format prefix field_name_str field_base_type_str optional_str ""
         field_description
       ++ (nl ++ prefix ++ field_name_str ++ " fields:"
             ++ describeFields T_config (nl ++ prefix ++ " ")) |}.
End FieldDescriptors.

(** ** Translators and formatters of the field types used below *)

(** [id_translator<std::string>]: a string converts to itself. *)
#[export] Instance string_Translator : Translator string :=
  {| translate := fun s => Some s |}.

#[export] Instance string_Formattable : Formattable string :=
  {| format := fun s => s |}.

(** [std::isspace] in the classic locale. *)
Definition isspace (c : ascii) : bool :=
  let n := nat_of_ascii c in
  Nat.eqb n 32 || (Nat.leb 9 n && Nat.leb n 13).

(** [std::ws]: drops the leading white space. *)
Fixpoint skip_ws (s : string) : string :=
  match s with
  | String c rest => if isspace c then skip_ws rest else s
  | EmptyString => EmptyString
  end.

Definition digit_of (c : ascii) : option Z :=
  let n := nat_of_ascii c in
  if Nat.leb 48 n && Nat.leb n 57 then Some (Z.of_nat (n - 48)) else None.

(** The digits at the front of [s], accumulated in base 10 on top of [acc];
    [seen] tells whether a digit was read. *)
Fixpoint read_digits (s : string) (acc : Z) (seen : bool) : Z * bool * string :=
  match s with
  | String c rest =>
      match digit_of c with
      | Some d => read_digits rest (10 * acc + d) true
      | None => (acc, seen, s)
      end
  | EmptyString => (acc, seen, s)
  end.

(** [stream_translator<..., int>]: [iss >> e] in base 10 (white space, an
    optional sign, digits, a value that fits a 32-bit [int]), then
    [iss >> std::ws]; the conversion fails unless the whole string was
    consumed. *)
Definition translate_int (s : string) : option Z :=
  let s1 := skip_ws s in
  let '(negative, s2) :=
    match s1 with
    | String "-"%char rest => (true, rest)
    | String "+"%char rest => (false, rest)
    | _ => (false, s1)
    end in
  match read_digits s2 0%Z false with
  | (n, true, rest) =>
      let v := if negative then (- n)%Z else n in
      if ((- 2147483648 <=? v) && (v <=? 2147483647))%Z then
        match skip_ws rest with
        | EmptyString => Some v
        | String _ _ => None
        end
      else None
  | (_, false, _) => None
  end.

#[export] Instance int_Translator : Translator Z :=
  {| translate := translate_int |}.

(** [fmt::format] of an [int]: its decimal numeral. *)
#[export] Instance int_Formattable : Formattable Z :=
  {| format := fun z => NilZero.string_of_int (Z.to_int z) |}.

(** ** Schemas declared with the macros

    Three schema types as [CVS_CONFIG], [CVS_FIELD], [CVS_FIELD_DEF] and
    [CVS_FIELD_OPT] declare them. A data member that the macro leaves
    without initialiser ([int], whose value is indeterminate after
    [Self result;]) is shown as [0]. *)
Module Example.

(** [CVS_CONFIG(Limits, "Limits") {
      CVS_FIELD_DEF(level, int, 3, "Level");
      CVS_FIELD_OPT(label, std::string, "Label"); };] *)
Record Limits : Type := { level : Z; label : option string }.

Definition level_pointer : member Limits Z :=
  {| load := level;
     store := fun v s => {| level := v; label := label s |};
     load_store := fun _ _ => eq_refl |}.

Definition label_pointer : member Limits (option string) :=
  {| load := label;
     store := fun v s => {| level := level s; label := v |};
     load_store := fun _ _ => eq_refl |}.

Definition level_descriptor : BaseFieldDescriptor Limits :=
  FieldDescriptor_default "level" "Level" "int" level_pointer 3%Z.

Definition label_descriptor : BaseFieldDescriptor Limits :=
  FieldDescriptor_optional "label" "Label" "std::string" label_pointer.

Definition Limits_config : CVSConfig Limits :=
  {| Name := "Limits";
     Description := "Limits";
     default_constructed := {| level := 0; label := None |};
     descriptors := [level_descriptor; label_descriptor] |}.

(** [CVS_CONFIG(Batch, "Batch") {
      CVS_FIELD_DEF(size, int, 1, "Size");
      CVS_FIELD(items, std::vector<int>, "Items"); };] *)
Record Batch : Type := { size : Z; items : list Z }.

Definition size_pointer : member Batch Z :=
  {| load := size;
     store := fun v s => {| size := v; items := items s |};
     load_store := fun _ _ => eq_refl |}.

Definition items_pointer : member Batch (list Z) :=
  {| load := items;
     store := fun v s => {| size := size s; items := v |};
     load_store := fun _ _ => eq_refl |}.

Definition size_descriptor : BaseFieldDescriptor Batch :=
  FieldDescriptor_default "size" "Size" "int" size_pointer 1%Z.

Definition items_descriptor : BaseFieldDescriptor Batch :=
  FieldDescriptor_vector "items" "Items" "std::vector<int>" items_pointer.

Definition Batch_config : CVSConfig Batch :=
  {| Name := "Batch";
     Description := "Batch";
     default_constructed := {| size := 0; items := [] |};
     descriptors := [size_descriptor; items_descriptor] |}.

(** [CVS_CONFIG(Server, "Server") {
      CVS_FIELD(host, std::string, "Host name");
      CVS_FIELD_DEF(port, int, 8080, "Port");
      CVS_FIELD_OPT(timeout, int, "Timeout");
      CVS_FIELD_OPT(tags, std::vector<std::string>, "Tags");
      CVS_FIELD(ids, std::vector<int>, "Ids");
      CVS_FIELD(limits, Limits, "Limits");
      CVS_FIELD_OPT(backup, Limits, "Backup limits");
      CVS_FIELD(batch, Batch, "Batch"); };] *)
Record Server : Type := {
  host : string;
  port : Z;
  timeout : option Z;
  tags : option (list string);
  ids : list Z;
  limits : Limits;
  backup : option Limits;
  batch : Batch
}.

Definition host_pointer : member Server string :=
  {| load := host;
     store := fun v s =>
       {| host := v; port := port s; timeout := timeout s; tags := tags s;
          ids := ids s; limits := limits s; backup := backup s; batch := batch s |};
     load_store := fun _ _ => eq_refl |}.

Definition port_pointer : member Server Z :=
  {| load := port;
     store := fun v s =>
       {| host := host s; port := v; timeout := timeout s; tags := tags s;
          ids := ids s; limits := limits s; backup := backup s; batch := batch s |};
     load_store := fun _ _ => eq_refl |}.

Definition timeout_pointer : member Server (option Z) :=
  {| load := timeout;
     store := fun v s =>
       {| host := host s; port := port s; timeout := v; tags := tags s;
          ids := ids s; limits := limits s; backup := backup s; batch := batch s |};
     load_store := fun _ _ => eq_refl |}.

Definition tags_pointer : member Server (option (list string)) :=
  {| load := tags;
     store := fun v s =>
       {| host := host s; port := port s; timeout := timeout s; tags := v;
          ids := ids s; limits := limits s; backup := backup s; batch := batch s |};
     load_store := fun _ _ => eq_refl |}.

Definition ids_pointer : member Server (list Z) :=
  {| load := ids;
     store := fun v s =>
       {| host := host s; port := port s; timeout := timeout s; tags := tags s;
          ids := v; limits := limits s; backup := backup s; batch := batch s |};
     load_store := fun _ _ => eq_refl |}.

Definition limits_pointer : member Server Limits :=
  {| load := limits;
     store := fun v s =>
       {| host := host s; port := port s; timeout := timeout s; tags := tags s;
          ids := ids s; limits := v; backup := backup s; batch := batch s |};
     load_store := fun _ _ => eq_refl |}.

Definition backup_pointer : member Server (option Limits) :=
  {| load := backup;
     store := fun v s =>
       {| host := host s; port := port s; timeout := timeout s; tags := tags s;
          ids := ids s; limits := limits s; backup := v; batch := batch s |};
     load_store := fun _ _ => eq_refl |}.

Definition batch_pointer : member Server Batch :=
  {| load := batch;
     store := fun v s =>
       {| host := host s; port := port s; timeout := timeout s; tags := tags s;
          ids := ids s; limits := limits s; backup := backup s; batch := v |};
     load_store := fun _ _ => eq_refl |}.

Definition host_descriptor : BaseFieldDescriptor Server :=
  FieldDescriptor_simple "host" "Host name" "std::string" host_pointer.

Definition port_descriptor : BaseFieldDescriptor Server :=
  FieldDescriptor_default "port" "Port" "int" port_pointer 8080%Z.

Definition timeout_descriptor : BaseFieldDescriptor Server :=
  FieldDescriptor_optional "timeout" "Timeout" "int" timeout_pointer.

Definition tags_descriptor : BaseFieldDescriptor Server :=
  FieldDescriptor_optional_vector "tags" "Tags" "std::vector<std::string>" tags_pointer.

Definition ids_descriptor : BaseFieldDescriptor Server :=
  FieldDescriptor_vector "ids" "Ids" "std::vector<int>" ids_pointer.

Definition limits_descriptor : BaseFieldDescriptor Server :=
  FieldDescriptor_nested "limits" "Limits" "Limits" Limits_config limits_pointer.

Definition backup_descriptor : BaseFieldDescriptor Server :=
  FieldDescriptor_optional_nested "backup" "Backup limits" "Limits" Limits_config
    backup_pointer.

Definition batch_descriptor : BaseFieldDescriptor Server :=
  FieldDescriptor_nested "batch" "Batch" "Batch" Batch_config batch_pointer.

Definition Server_config : CVSConfig Server :=
  {| Name := "Server";
     Description := "Server";
     default_constructed :=
       {| host := ""; port := 0; timeout := None; tags := None; ids := [];
          limits := {| level := 0; label := None |}; backup := None;
          batch := {| size := 0; items := [] |} |};
     descriptors :=
       [host_descriptor; port_descriptor; timeout_descriptor; tags_descriptor;
        ids_descriptor; limits_descriptor; backup_descriptor; batch_descriptor] |}.

(** A leaf: a node with data and no child. *)
Definition leaf (d : string) : Properties := ptree d [].

End Example.

(** ** Which specialisation a descriptor is *)

(** [bound_to pointer d]: [d] is one of the seven specialisations,
    instantiated with [pointer]. *)
Inductive bound_to {Self : Type}
  : forall {F : Type}, member Self F -> BaseFieldDescriptor Self -> Prop :=
| bound_simple : forall name descr base T (tr : Translator T) (p : member Self T),
    bound_to p (FieldDescriptor_simple name descr base p)
| bound_default : forall name descr base T (tr : Translator T) (fm : Formattable T)
    (p : member Self T) (dflt : T),
    bound_to p (FieldDescriptor_default name descr base p dflt)
| bound_optional : forall name descr base T (tr : Translator T)
    (p : member Self (option T)),
    bound_to p (FieldDescriptor_optional name descr base p)
| bound_vector : forall name descr base T (tr : Translator T)
    (p : member Self (list T)),
    bound_to p (FieldDescriptor_vector name descr base p)
| bound_optional_vector : forall name descr base T (tr : Translator T)
    (p : member Self (option (list T))),
    bound_to p (FieldDescriptor_optional_vector name descr base p)
| bound_nested : forall name descr base T (T_config : CVSConfig T) (p : member Self T),
    bound_to p (FieldDescriptor_nested name descr base T_config p)
| bound_optional_nested : forall name descr base T (T_config : CVSConfig T)
    (p : member Self (option T)),
    bound_to p (FieldDescriptor_optional_nested name descr base T_config p).

(** A field declared with a default value, or declared optional: the
    default-value specialisation and the three specialisations for
    [std::optional] members. *)
Inductive defaulted_or_optional {Self : Type} : BaseFieldDescriptor Self -> Prop :=
| tolerant_default : forall name descr base T (tr : Translator T) (fm : Formattable T)
    (p : member Self T) (dflt : T),
    defaulted_or_optional (FieldDescriptor_default name descr base p dflt)
| tolerant_optional : forall name descr base T (tr : Translator T)
    (p : member Self (option T)),
    defaulted_or_optional (FieldDescriptor_optional name descr base p)
| tolerant_optional_vector : forall name descr base T (tr : Translator T)
    (p : member Self (option (list T))),
    defaulted_or_optional (FieldDescriptor_optional_vector name descr base p)
| tolerant_optional_nested : forall name descr base T (T_config : CVSConfig T)
    (p : member Self (option T)),
    defaulted_or_optional (FieldDescriptor_optional_nested name descr base T_config p).

(** A field declared with a default value. *)
Inductive default_field {Self : Type} : BaseFieldDescriptor Self -> Prop :=
| default_field_intro : forall name descr base T (tr : Translator T) (fm : Formattable T)
    (p : member Self T) (dflt : T),
    default_field (FieldDescriptor_default name descr base p dflt).

(** A (non-optional) vector field called [name]. *)
Inductive vector_field {Self : Type} (name : string) : BaseFieldDescriptor Self -> Prop :=
| vector_field_intro : forall descr base T (tr : Translator T) (p : member Self (list T)),
    vector_field name (FieldDescriptor_vector name descr base p).

(** Every field of the schema is defaulted or is a vector field. *)
Definition defaulted_or_vector {Self : Type} (f : BaseFieldDescriptor Self) : Prop :=
  default_field f \/ exists name, vector_field name f.

(** ** Concrete inputs: property trees, instances and statics *)
Module Inputs.
Import Example.

(** [{"host": "x"}] *)
Definition host_only : Properties := ptree "" [("host", leaf "x")].

(** [{"port": "abc"}] *)
Definition port_not_a_number : Properties := ptree "" [("port", leaf "abc")].

(** [{"timeout": "soon"}] *)
Definition timeout_not_a_number : Properties := ptree "" [("timeout", leaf "soon")].

(** [{"timeout": "30"}] *)
Definition timeout_thirty : Properties := ptree "" [("timeout", leaf "30")].

(** [{"host": "x", "tags": ""}]: the key [tags] is present and has no child. *)
Definition host_and_no_tag : Properties :=
  ptree "" [("host", leaf "x"); ("tags", leaf "")].

(** The statics of [Limits] with another default-constructed value. *)
Definition Limits_config_again : CVSConfig Limits :=
  {| Name := Name Limits_config;
     Description := Description Limits_config;
     default_constructed := {| level := 7; label := Some "x" |};
     descriptors := descriptors Limits_config |}.

(** A server that already has a timeout of 5. *)
Definition server_with_timeout : Server :=
  store timeout_pointer (Some 5%Z) (default_constructed Server_config).
End Inputs.

(** ** The key a descriptor reads *)

(** [field_named name d]: [d] is one of the seven specialisations,
    instantiated with the field name [name]. *)
Inductive field_named {Self : Type} (name : string) : BaseFieldDescriptor Self -> Prop :=
| named_simple : forall descr base T (tr : Translator T) (p : member Self T),
    field_named name (FieldDescriptor_simple name descr base p)
| named_default : forall descr base T (tr : Translator T) (fm : Formattable T)
    (p : member Self T) (dflt : T),
    field_named name (FieldDescriptor_default name descr base p dflt)
| named_optional : forall descr base T (tr : Translator T) (p : member Self (option T)),
    field_named name (FieldDescriptor_optional name descr base p)
| named_vector : forall descr base T (tr : Translator T) (p : member Self (list T)),
    field_named name (FieldDescriptor_vector name descr base p)
| named_optional_vector : forall descr base T (tr : Translator T)
    (p : member Self (option (list T))),
    field_named name (FieldDescriptor_optional_vector name descr base p)
| named_nested : forall descr base T (T_config : CVSConfig T) (p : member Self T),
    field_named name (FieldDescriptor_nested name descr base T_config p)
| named_optional_nested : forall descr base T (T_config : CVSConfig T)
    (p : member Self (option T)),
    field_named name (FieldDescriptor_optional_nested name descr base T_config p).

(** [d] is bound to some data member other than the one [q] designates. *)
Definition bound_elsewhere {Self G : Type} (q : member Self G)
  (d : BaseFieldDescriptor Self) : Prop :=
  exists (F : Type) (p : member Self F), bound_to p d /\ other_member p q.

(** The string holds no NUL character. *)
Fixpoint no_nul (s : string) : bool :=
  match s with
  | String c rest => negb (Ascii.eqb c zero) && no_nul rest
  | EmptyString => true
  end.

(** The elements of a container whose data convert, in the order of the
    container; the keys are not looked at. *)
Definition converts_to {T : Type} `{Translator T}
  (container : list (string * Properties)) (values : list T) : Prop :=
  Forall2 (fun child v => get_value_optional (snd child) = Some v) container values.

(** ** Schemas nested in two levels *)
Module Nesting.
Import Example.

(** [CVS_CONFIG(Wrapper, "Wrapper") {
      CVS_FIELD(limits, Limits, "Limits"); };] *)
Record Wrapper : Type := { inner_limits : Limits }.

Definition inner_limits_pointer : member Wrapper Limits :=
  {| load := inner_limits;
     store := fun v _ => {| inner_limits := v |};
     load_store := fun _ _ => eq_refl |}.

Definition inner_limits_descriptor : BaseFieldDescriptor Wrapper :=
  FieldDescriptor_nested "limits" "Limits" "Limits" Limits_config inner_limits_pointer.

Definition Wrapper_config : CVSConfig Wrapper :=
  {| Name := "Wrapper";
     Description := "Wrapper";
     default_constructed := {| inner_limits := {| level := 0; label := None |} |};
     descriptors := [inner_limits_descriptor] |}.

(** [CVS_CONFIG(Deployment, "Deployment") {
      CVS_FIELD_DEF(replicas, int, 2, "Replicas");
      CVS_FIELD(wrapper, Wrapper, "Wrapper");
      CVS_FIELD_OPT(spare, Wrapper, "Spare"); };]
    [revision] stands for a data member declared without the macros. *)
Record Deployment : Type := {
  replicas : Z;
  wrapper : Wrapper;
  spare : option Wrapper;
  revision : Z
}.

Definition replicas_pointer : member Deployment Z :=
  {| load := replicas;
     store := fun v s =>
       {| replicas := v; wrapper := wrapper s; spare := spare s;
          revision := revision s |};
     load_store := fun _ _ => eq_refl |}.

Definition wrapper_pointer : member Deployment Wrapper :=
  {| load := wrapper;
     store := fun v s =>
       {| replicas := replicas s; wrapper := v; spare := spare s;
          revision := revision s |};
     load_store := fun _ _ => eq_refl |}.

Definition spare_pointer : member Deployment (option Wrapper) :=
  {| load := spare;
     store := fun v s =>
       {| replicas := replicas s; wrapper := wrapper s; spare := v;
          revision := revision s |};
     load_store := fun _ _ => eq_refl |}.

Definition revision_pointer : member Deployment Z :=
  {| load := revision;
     store := fun v s =>
       {| replicas := replicas s; wrapper := wrapper s; spare := spare s;
          revision := v |};
     load_store := fun _ _ => eq_refl |}.

Definition replicas_descriptor : BaseFieldDescriptor Deployment :=
  FieldDescriptor_default "replicas" "Replicas" "int" replicas_pointer 2%Z.

Definition wrapper_descriptor : BaseFieldDescriptor Deployment :=
  FieldDescriptor_nested "wrapper" "Wrapper" "Wrapper" Wrapper_config wrapper_pointer.

Definition spare_descriptor : BaseFieldDescriptor Deployment :=
  FieldDescriptor_optional_nested "spare" "Spare" "Wrapper" Wrapper_config spare_pointer.

Definition Deployment_config : CVSConfig Deployment :=
  {| Name := "Deployment";
     Description := "Deployment";
     default_constructed :=
       {| replicas := 0;
          wrapper := {| inner_limits := {| level := 0; label := None |} |};
          spare := None;
          revision := 42 |};
     descriptors := [replicas_descriptor; wrapper_descriptor; spare_descriptor] |}.

(** [{"replicas": "5"}] *)
Definition replicas_only : Properties := ptree "" [("replicas", leaf "5")].

(** [{"wrapper": {"limits": {"level": "high"}}}] *)
Definition level_not_a_number : Properties :=
  ptree "" [("wrapper", ptree "" [("limits", ptree "" [("level", leaf "high")])])].

(** [{"wrapper": {"limits": {"level": "9"}}}] *)
Definition level_nine : Properties :=
  ptree "" [("wrapper", ptree "" [("limits", ptree "" [("level", leaf "9")])])].

(** [{"comment": "x", "wrapper": {"limits": {"level": "9"}}, "owner": "y"}] *)
Definition level_nine_and_more : Properties :=
  ptree "" [("comment", leaf "x");
            ("wrapper", ptree "" [("limits", ptree "" [("level", leaf "9")])]);
            ("owner", leaf "y")].

(** [{"ids": ["4", "x", "6"]}] and [{"ids": ["4", "5", "6"]}] *)
Definition ids_with_a_letter : Properties :=
  ptree "" [("ids", ptree "" [("", leaf "4"); ("", leaf "x"); ("", leaf "6")])].

Definition ids_four_five_six : Properties :=
  ptree "" [("ids", ptree "" [("", leaf "4"); ("", leaf "5"); ("", leaf "6")])].

(** [{"tags": ["a", "b"]}] *)
Definition tags_a_b : Properties :=
  ptree "" [("tags", ptree "" [("", leaf "a"); ("", leaf "b")])].

(** [{"host": 7}]: the key is present and its data is ["7"]. *)
Definition host_seven : Properties := ptree "" [("host", leaf "7")].

(** [{"port": " 81 "}] *)
Definition port_eighty_one : Properties := ptree "" [("port", leaf " 81 ")].
(** [{"host": "x", "ids": "", "batch": ""}]: a batch without [items]. *)
Definition batch_without_items : Properties :=
  ptree "" [("host", leaf "x"); ("ids", leaf ""); ("batch", leaf "")].

(** [{"replicas": "5", "wrapper": {"limits": {"level": "9"}}}] *)
Definition replicas_and_level : Properties :=
  ptree "" [("replicas", leaf "5");
            ("wrapper", ptree "" [("limits", ptree "" [("level", leaf "9")])])].

(** [{"spare": {"limits": {"label": "s"}}}] *)
Definition spare_labelled : Properties :=
  ptree "" [("spare", ptree "" [("limits", ptree "" [("label", leaf "s")])])].
End Nesting.

(** * Properties *)

(** ** The loop of [make] *)

Lemma set_fields_app {Self : Type} (before after : list (BaseFieldDescriptor Self))
  (data : Properties) (start : Self) :
  set_fields (before ++ after)%list data start =
  match set_fields before data start with
  | (result, inr _) => set_fields after data result
  | (result, inl e) => (result, throw e)
  end.
Proof.
  revert start.
  induction before as [|field rest IH]; intros start; simpl.
  - reflexivity.
  - unfold bind. destruct (set field start data) as [result [e|[]]].
    + reflexivity.
    + apply IH.
Qed.

(** [make] yields a value only when every [set] returned, and otherwise the
    failure built by [CVS_RETURN_WITH_NESTED]. *)
Lemma make_outcome {Self : Type} (cfg : CVSConfig Self) (data : Properties) :
  (exists result,
      set_fields (descriptors cfg) data (default_constructed cfg) = (result, returns tt)
      /\ make cfg data = outcome_value result)
  \/ (exists partial cause,
         set_fields (descriptors cfg) data (default_constructed cfg) = (partial, throw cause)
         /\ make cfg data
            = outcome_failure (with_nested ("Can't init config " ++ Name cfg) cause)).
Proof.
  unfold make.
  destruct (set_fields (descriptors cfg) data (default_constructed cfg))
    as [result [cause|[]]].
  - right. exists result, cause. split; reflexivity.
  - left. exists result. split; reflexivity.
Qed.

(** C1: when the [set] of some field descriptor throws during [make(tree)]
    (the descriptors before it having returned), [make] returns a failed
    outcome whose message names the schema type and whose cause is the
    exception thrown by that [set]; no instance is returned, the partly
    populated [result] included. *)
Theorem make_fails_atomically {Self : Type} (cfg : CVSConfig Self) (data : Properties)
  (before after : list (BaseFieldDescriptor Self)) (field : BaseFieldDescriptor Self)
  (result : Self) (cause : exception) :
  descriptors cfg = (before ++ field :: after)%list ->
  set_fields before data (default_constructed cfg) = (result, returns tt) ->
  snd (set field result data) = throw cause ->
  make cfg data = outcome_failure (with_nested ("Can't init config " ++ Name cfg) cause)
  /\ forall instance, make cfg data <> outcome_value instance.
Proof.
  intros Hsplit Hbefore Hfield.
  assert (Hmake : make cfg data
                  = outcome_failure (with_nested ("Can't init config " ++ Name cfg) cause)).
  { unfold make. rewrite Hsplit, set_fields_app, Hbefore. simpl. unfold bind.
    destruct (set field result data) as [result' [e|[]]]; simpl in Hfield.
    - injection Hfield as ->. reflexivity.
    - discriminate Hfield. }
  split; [exact Hmake|].
  intros instance Hvalue. rewrite Hmake in Hvalue. discriminate Hvalue.
Qed.

Lemma make_fails_atomically_witness :
  make Example.Server_config Inputs.host_only
  = outcome_failure (with_nested "Can't init config Server" (ptree_bad_path "ids"))
  /\ forall instance, make Example.Server_config Inputs.host_only <> outcome_value instance.
Proof.
  apply (@make_fails_atomically _ Example.Server_config Inputs.host_only
           [Example.host_descriptor; Example.port_descriptor; Example.timeout_descriptor;
            Example.tags_descriptor]
           [Example.limits_descriptor; Example.backup_descriptor; Example.batch_descriptor]
           Example.ids_descriptor
           (store Example.port_pointer 8080%Z
              (store Example.host_pointer "x"
                 (default_constructed Example.Server_config)))
           (ptree_bad_path "ids")); reflexivity.
Defined.

(** ** Scalar fields *)

Section ScalarFields.
Context {Self T : Type} `{Translator T}.
Variables name descr base : string.

(** C6: a field declared with a default value, set from a tree that has
    no child under the field's key: [set] returns and the field holds
    exactly the declared default. *)
Theorem default_field_absent_key `{Formattable T} (pointer : member Self T)
  (field_default_value : T) (config : Self) (ptree : Properties) :
  find name ptree = None ->
  set (FieldDescriptor_default name descr base pointer field_default_value) config ptree
  = (store pointer field_default_value config, returns tt)
  /\ load pointer
       (fst (set (FieldDescriptor_default name descr base pointer field_default_value)
               config ptree))
     = field_default_value.
Proof.
  intros Habsent.
  assert (Hset : set (FieldDescriptor_default name descr base pointer field_default_value)
                   config ptree
                 = (store pointer field_default_value config, returns tt)).
  { simpl. unfold assign, get_or, get_optional, get_child_optional.
    rewrite Habsent. reflexivity. }
  split; [exact Hset|].
  rewrite Hset. simpl. apply load_store.
Qed.

(** C2, as the code has it: a field declared with a default value, whose
    key is present with a leaf that does not convert to the field's type:
    [set] throws nothing and assigns the declared default. *)
Theorem default_field_unconvertible_assigns_default `{Formattable T}
  (pointer : member Self T) (field_default_value : T) (config : Self)
  (ptree child : Properties) :
  find name ptree = Some child ->
  get_value_optional (T := T) child = None ->
  set (FieldDescriptor_default name descr base pointer field_default_value) config ptree
  = (store pointer field_default_value config, returns tt)
  /\ load pointer
       (fst (set (FieldDescriptor_default name descr base pointer field_default_value)
               config ptree))
     = field_default_value.
Proof.
  intros Hpresent Hconv.
  assert (Hset : set (FieldDescriptor_default name descr base pointer field_default_value)
                   config ptree
                 = (store pointer field_default_value config, returns tt)).
  { simpl. unfold assign, get_or, get_optional, get_child_optional.
    rewrite Hpresent, Hconv. reflexivity. }
  split; [exact Hset|].
  rewrite Hset. simpl. apply load_store.
Qed.

(** C3, as the code has it: for an optional scalar field,
    - with the key absent [set] returns and leaves the instance as it was
      (the field is empty in the instance [make] has just constructed);
    - with the key present and a leaf that converts to [val], [set]
      returns and the field holds [val];
    - with the key present and a leaf that does not convert, [set] throws
      nothing and leaves the instance as it was. *)
Theorem optional_field_set (pointer : member Self (option T)) (config : Self)
  (ptree : Properties) :
  (find name ptree = None ->
   set (FieldDescriptor_optional name descr base pointer) config ptree
   = (config, returns tt))
  /\ (forall child val,
         find name ptree = Some child ->
         get_value_optional child = Some val ->
         set (FieldDescriptor_optional name descr base pointer) config ptree
         = (store pointer (Some val) config, returns tt)
         /\ load pointer
              (fst (set (FieldDescriptor_optional name descr base pointer) config ptree))
            = Some val)
  /\ (forall child,
         find name ptree = Some child ->
         get_value_optional (T := T) child = None ->
         set (FieldDescriptor_optional name descr base pointer) config ptree
         = (config, returns tt)).
Proof.
  split; [|split].
  - intros Habsent. simpl. unfold get_optional, get_child_optional.
    rewrite Habsent. reflexivity.
  - intros child val Hpresent Hconv.
    assert (Hset : set (FieldDescriptor_optional name descr base pointer) config ptree
                   = (store pointer (Some val) config, returns tt)).
    { simpl. unfold get_optional, get_child_optional.
      rewrite Hpresent, Hconv. reflexivity. }
    split; [exact Hset|].
    rewrite Hset. simpl. apply load_store.
  - intros child Hpresent Hconv. simpl. unfold get_optional, get_child_optional.
    rewrite Hpresent, Hconv. reflexivity.
Qed.
End ScalarFields.

Lemma default_field_absent_key_witness :
  find "port" Inputs.host_only = None
  /\ set Example.port_descriptor (default_constructed Example.Server_config) Inputs.host_only
     = (store Example.port_pointer 8080%Z (default_constructed Example.Server_config),
        returns tt)
  /\ load Example.port_pointer
       (fst (set Example.port_descriptor (default_constructed Example.Server_config)
               Inputs.host_only))
     = 8080%Z.
Proof.
  split; [reflexivity|].
  apply (@default_field_absent_key Example.Server Z _ "port" "Port" "int" _
           Example.port_pointer 8080%Z (default_constructed Example.Server_config)
           Inputs.host_only).
  reflexivity.
Defined.

(** C2 fails on the code: the key [port] is present, its leaf ["abc"] does
    not convert to [int], and [set] throws nothing. *)
Lemma default_field_unconvertible_counterexample :
  find "port" Inputs.port_not_a_number = Some (Example.leaf "abc")
  /\ get_value_optional (T := Z) (Example.leaf "abc") = None
  /\ ~ (exists e,
          snd (set Example.port_descriptor (default_constructed Example.Server_config)
                 Inputs.port_not_a_number)
          = throw e).
Proof.
  split; [reflexivity|]. split; [reflexivity|].
  intros [e He]. discriminate He.
Qed.

Lemma default_field_unconvertible_assigns_default_witness :
  find "port" Inputs.port_not_a_number = Some (Example.leaf "abc")
  /\ get_value_optional (T := Z) (Example.leaf "abc") = None
  /\ set Example.port_descriptor (default_constructed Example.Server_config)
       Inputs.port_not_a_number
     = (store Example.port_pointer 8080%Z (default_constructed Example.Server_config),
        returns tt)
  /\ load Example.port_pointer
       (fst (set Example.port_descriptor (default_constructed Example.Server_config)
               Inputs.port_not_a_number))
     = 8080%Z.
Proof.
  split; [reflexivity|]. split; [reflexivity|].
  apply (@default_field_unconvertible_assigns_default Example.Server Z _ "port" "Port"
           "int" _ Example.port_pointer 8080%Z (default_constructed Example.Server_config)
           Inputs.port_not_a_number (Example.leaf "abc")); reflexivity.
Defined.

(** C3 fails on the code in two places: with the key [timeout] present and
    a leaf that does not convert to [int], [set] throws nothing; with the
    key absent, a field that held 5 before the call is not empty after
    it. *)
Lemma optional_field_counterexample :
  (find "timeout" Inputs.timeout_not_a_number = Some (Example.leaf "soon")
   /\ get_value_optional (T := Z) (Example.leaf "soon") = None
   /\ ~ (exists e,
           snd (set Example.timeout_descriptor Inputs.server_with_timeout
                  Inputs.timeout_not_a_number)
           = throw e))
  /\ (find "timeout" empty_Properties = None
      /\ load Example.timeout_pointer
           (fst (set Example.timeout_descriptor Inputs.server_with_timeout
                   empty_Properties))
         <> None).
Proof.
  split.
  - split; [reflexivity|]. split; [reflexivity|].
    intros [e He]. discriminate He.
  - split; [reflexivity|]. discriminate.
Qed.

Lemma optional_field_set_witness :
  set Example.timeout_descriptor (default_constructed Example.Server_config)
    Inputs.timeout_thirty
  = (store Example.timeout_pointer (Some 30%Z) (default_constructed Example.Server_config),
     returns tt)
  /\ set Example.timeout_descriptor (default_constructed Example.Server_config)
       Inputs.host_only
     = (default_constructed Example.Server_config, returns tt)
  /\ set Example.timeout_descriptor (default_constructed Example.Server_config)
       Inputs.timeout_not_a_number
     = (default_constructed Example.Server_config, returns tt).
Proof.
  split; [|split].
  - apply (proj1 (proj2 (@optional_field_set Example.Server Z _ "timeout" "Timeout" "int"
                           Example.timeout_pointer
                           (default_constructed Example.Server_config)
                           Inputs.timeout_thirty))
             (Example.leaf "30") 30%Z); reflexivity.
  - apply (proj1 (@optional_field_set Example.Server Z _ "timeout" "Timeout" "int"
                    Example.timeout_pointer (default_constructed Example.Server_config)
                    Inputs.host_only)); reflexivity.
  - apply (proj2 (proj2 (@optional_field_set Example.Server Z _ "timeout" "Timeout" "int"
                           Example.timeout_pointer
                           (default_constructed Example.Server_config)
                           Inputs.timeout_not_a_number))
             (Example.leaf "soon")); reflexivity.
Defined.

(** ** Vector fields *)

Section VectorFields.
Context {Self T : Type} `{Translator T}.
Variables name descr base : string.

(** C4: a (non-optional) vector field set from a tree that has no child
    under the field's key: [set] throws ([ptree_bad_path], from
    [get_child]) and leaves the instance as it was, although the
    descriptor answers [true] to [is_optional()]. *)
Theorem vector_field_absent_key (pointer : member Self (list T)) (config : Self)
  (ptree : Properties) :
  find name ptree = None ->
  set (FieldDescriptor_vector name descr base pointer) config ptree
  = (config, throw (ptree_bad_path name))
  /\ is_optional (FieldDescriptor_vector name descr base pointer) = true.
Proof.
  intros Habsent. split; [|reflexivity].
  simpl. unfold bind, eval, get_child, get_child_optional.
  rewrite Habsent. reflexivity.
Qed.

(** C5, as the code has it: an optional vector field set from a tree that
    has no child under the field's key: [set] returns and the field holds
    [std::nullopt], the optional without a collection. *)
Theorem optional_vector_absent_key (pointer : member Self (option (list T)))
  (config : Self) (ptree : Properties) :
  find name ptree = None ->
  set (FieldDescriptor_optional_vector name descr base pointer) config ptree
  = (store pointer None config, returns tt)
  /\ load pointer
       (fst (set (FieldDescriptor_optional_vector name descr base pointer) config ptree))
     = None.
Proof.
  intros Habsent.
  assert (Hset : set (FieldDescriptor_optional_vector name descr base pointer) config ptree
                 = (store pointer None config, returns tt)).
  { simpl. unfold get_child_optional. rewrite Habsent. reflexivity. }
  split; [exact Hset|].
  rewrite Hset. simpl. apply load_store.
Qed.
End VectorFields.

Lemma vector_field_absent_key_witness :
  find "ids" Inputs.host_only = None
  /\ set Example.ids_descriptor (default_constructed Example.Server_config) Inputs.host_only
     = (default_constructed Example.Server_config, throw (ptree_bad_path "ids"))
  /\ is_optional Example.ids_descriptor = true.
Proof.
  split; [reflexivity|].
  apply (@vector_field_absent_key Example.Server Z _ "ids" "Ids" "std::vector<int>"
           Example.ids_pointer (default_constructed Example.Server_config)
           Inputs.host_only).
  reflexivity.
Defined.

(** C5 fails on the code: with the key [tags] absent the field does not
    hold an empty collection, which is what it holds when the key is
    present without children. *)
Lemma optional_vector_absent_key_counterexample :
  find "tags" Inputs.host_only = None
  /\ load Example.tags_pointer
       (fst (set Example.tags_descriptor (default_constructed Example.Server_config)
               Inputs.host_only))
     <> Some []
  /\ load Example.tags_pointer
       (fst (set Example.tags_descriptor (default_constructed Example.Server_config)
               Inputs.host_and_no_tag))
     = Some [].
Proof.
  split; [reflexivity|]. split; [discriminate|reflexivity].
Qed.

Lemma optional_vector_absent_key_witness :
  find "tags" Inputs.host_only = None
  /\ set Example.tags_descriptor (default_constructed Example.Server_config) Inputs.host_only
     = (store Example.tags_pointer None (default_constructed Example.Server_config),
        returns tt)
  /\ load Example.tags_pointer
       (fst (set Example.tags_descriptor (default_constructed Example.Server_config)
               Inputs.host_only))
     = None.
Proof.
  split; [reflexivity|].
  apply (@optional_vector_absent_key Example.Server string _ "tags" "Tags"
           "std::vector<std::string>" Example.tags_pointer
           (default_constructed Example.Server_config) Inputs.host_only).
  reflexivity.
Defined.

(** ** What a call of [set] writes *)

(** After [set] the instance is the one before the call, or the one before
    the call with one assignment through the descriptor's pointer. *)
Lemma set_assigns_through_pointer {Self F : Type} (pointer : member Self F)
  (d : BaseFieldDescriptor Self) (config : Self) (ptree : Properties) :
  bound_to pointer d ->
  fst (set d config ptree) = config
  \/ exists v, fst (set d config ptree) = store pointer v config.
Proof.
  intros Hbound. destruct Hbound; simpl; unfold bind, eval, assign, ret.
  - destruct (get name ptree) as [e|v]; [left|right; exists v]; reflexivity.
  - right. eexists. reflexivity.
  - destruct (get_optional name ptree) as [val|]; [right; eexists|left]; reflexivity.
  - destruct (get_child name ptree) as [e|container]; [left; reflexivity|].
    destruct (push_back_values (children_of container) []) as [e|values];
      [left|right; exists values]; reflexivity.
  - destruct (get_child_optional name ptree) as [container|];
      [|right; eexists; reflexivity].
    unfold bind, eval.
    destruct (push_back_values (children_of container) []) as [e|values];
      [left|right; eexists]; reflexivity.
  - destruct (can_be_default (descriptors T_config)).
    + destruct (find name ptree) as [second|]; unfold bind, eval.
      * destruct (value (make T_config second)) as [e|v];
          [left|right; exists v]; reflexivity.
      * destruct (value (make T_config empty_Properties)) as [e|v];
          [left|right; exists v]; reflexivity.
    + destruct (get_child name ptree) as [e|child]; [left; reflexivity|].
      destruct (value (make T_config child)) as [e|v];
        [left|right; exists v]; reflexivity.
  - destruct (find name ptree) as [second|]; [|right; eexists; reflexivity].
    unfold bind, eval.
    destruct (value (make T_config second)) as [e|v];
      [left|right; eexists]; reflexivity.
Qed.

(** C9: for each of the seven descriptor variants, every instance and every
    tree, a data member other than the one the descriptor is bound to reads
    the same after [set(instance, tree)] as before, whether [set] returned
    or threw. *)
Theorem set_mutates_only_bound_field {Self F G : Type} (pointer : member Self F)
  (other : member Self G) (d : BaseFieldDescriptor Self) (config : Self)
  (ptree : Properties) :
  bound_to pointer d ->
  other_member pointer other ->
  load other (fst (set d config ptree)) = load other config.
Proof.
  intros Hbound Hother.
  destruct (set_assigns_through_pointer config ptree Hbound) as [Hsame|[v Hstored]].
  - rewrite Hsame. reflexivity.
  - rewrite Hstored. apply Hother.
Qed.

Lemma set_mutates_only_bound_field_witness :
  load Example.host_pointer
    (fst (set Example.ids_descriptor Inputs.server_with_timeout
            (ptree "" [("ids", ptree "" [("", Example.leaf "7"); ("", Example.leaf "9")])])))
  = load Example.host_pointer Inputs.server_with_timeout
  /\ load Example.ids_pointer
       (fst (set Example.ids_descriptor Inputs.server_with_timeout
               (ptree "" [("ids", ptree "" [("", Example.leaf "7"); ("", Example.leaf "9")])])))
     = [7%Z; 9%Z].
Proof.
  split; [|reflexivity].
  apply (@set_mutates_only_bound_field Example.Server (list Z) string Example.ids_pointer
           Example.host_pointer Example.ids_descriptor Inputs.server_with_timeout
           (ptree "" [("ids", ptree "" [("", Example.leaf "7"); ("", Example.leaf "9")])])).
  - apply bound_vector.
  - intros v s. reflexivity.
Defined.

(** ** Nested schemas *)

Section Defaultability.
Context {T : Type}.

(** The loop with its [break] computes a conjunction over the fields. *)
Lemma can_be_default_forallb (fields : list (BaseFieldDescriptor T)) :
  can_be_default fields = forallb (fun f => has_default f || is_optional f) fields.
Proof.
  induction fields as [|f rest IH]; simpl; [reflexivity|].
  rewrite IH. destruct (has_default f), (is_optional f); reflexivity.
Qed.

Lemma can_be_default_iff (fields : list (BaseFieldDescriptor T)) :
  can_be_default fields = true
  <-> Forall (fun f => has_default f = true \/ is_optional f = true) fields.
Proof.
  rewrite can_be_default_forallb, forallb_forall, Forall_forall.
  split; intros Hall f Hin; specialize (Hall f Hin).
  - apply orb_true_iff. exact Hall.
  - apply orb_true_iff. exact Hall.
Qed.

Lemma defaulted_or_optional_flag (f : BaseFieldDescriptor T) :
  defaulted_or_optional f -> has_default f = true \/ is_optional f = true.
Proof.
  intros Hf. destruct Hf; simpl; auto.
Qed.

Lemma defaulted_or_vector_flag (f : BaseFieldDescriptor T) :
  defaulted_or_vector f -> has_default f = true \/ is_optional f = true.
Proof.
  intros [Hf|[name Hf]]; destruct Hf; simpl; auto.
Qed.

(** On [Properties{}] the [set] of a defaulted or optional field returns. *)
Lemma defaulted_or_optional_set_empty (f : BaseFieldDescriptor T) (config : T) :
  defaulted_or_optional f ->
  exists config', set f config empty_Properties = (config', returns tt).
Proof.
  intros Hf. destruct Hf; simpl; eexists; reflexivity.
Qed.

Lemma default_field_set_empty (f : BaseFieldDescriptor T) (config : T) :
  default_field f ->
  exists config', set f config empty_Properties = (config', returns tt).
Proof.
  intros Hf. destruct Hf; simpl; eexists; reflexivity.
Qed.

(** On [Properties{}] the [set] of a vector field throws. *)
Lemma vector_field_set_empty (name : string) (f : BaseFieldDescriptor T) (config : T) :
  vector_field name f ->
  set f config empty_Properties = (config, throw (ptree_bad_path name)).
Proof.
  intros Hf. destruct Hf. reflexivity.
Qed.

Lemma set_fields_empty_returns (fields : list (BaseFieldDescriptor T)) :
  Forall defaulted_or_optional fields ->
  forall config,
  exists built, set_fields fields empty_Properties config = (built, returns tt).
Proof.
  induction 1 as [|f rest Hf _ IH]; intros config; simpl.
  - exists config. reflexivity.
  - unfold bind.
    destruct (defaulted_or_optional_set_empty config Hf) as [config' ->].
    apply IH.
Qed.

Lemma set_fields_empty_throws (fields : list (BaseFieldDescriptor T)) :
  Forall defaulted_or_vector fields ->
  Exists (fun f => exists name, vector_field name f) fields ->
  forall config,
  exists partial name,
    Exists (vector_field name) fields
    /\ set_fields fields empty_Properties config = (partial, throw (ptree_bad_path name)).
Proof.
  induction 1 as [|f rest Hf _ IH]; intros Hsome config.
  - inversion Hsome.
  - simpl. unfold bind. destruct Hf as [Hdefault|[name Hvector]].
    + destruct (default_field_set_empty config Hdefault) as [config' Hset].
      rewrite Hset.
      assert (Hrest : Exists (fun f => exists name, vector_field name f) rest).
      { inversion Hsome as [? ? [name Hvector]|]; subst; [|assumption].
        rewrite (vector_field_set_empty config Hvector) in Hset. discriminate Hset. }
      destruct (IH Hrest config') as [partial [name [Hin Hthrows]]].
      exists partial, name. split; [apply Exists_cons_tl; exact Hin|exact Hthrows].
    + rewrite (vector_field_set_empty config Hvector).
      exists config, name. split; [apply Exists_cons_hd; exact Hvector|reflexivity].
Qed.
End Defaultability.

Section NestedFields.
Context {Self T : Type}.
Variables name descr base : string.
Variable T_config : CVSConfig T.
Variable pointer : member Self T.

(** C10: the nested descriptor judges the nested type fully defaultable
    exactly when each of its descriptors answers [true] to [has_default()]
    or to [is_optional()], and a vector field answers [true] to
    [is_optional()]. A nested type whose fields are all defaulted or
    vector fields is therefore judged fully defaultable; with its key
    absent [set] calls [T::make(Properties{})], and when the nested type
    has a vector field that build fails on the missing key of a vector
    field, so [set] throws the failure of [make]. *)
Theorem nested_defaultability_counts_vector_fields (config : Self) (ptree : Properties) :
  (can_be_default (descriptors T_config) = true
   <-> Forall (fun f => has_default f = true \/ is_optional f = true)
         (descriptors T_config))
  /\ (forall field (f : BaseFieldDescriptor T),
         vector_field field f -> is_optional f = true)
  /\ (Forall defaulted_or_vector (descriptors T_config) ->
      can_be_default (descriptors T_config) = true
      /\ (find name ptree = None ->
          set (FieldDescriptor_nested name descr base T_config pointer) config ptree
          = (v <- eval (value (make T_config empty_Properties)) ;;
             assign pointer v)%action config
          /\ (Exists (fun f => exists field, vector_field field f) (descriptors T_config) ->
              exists field,
                Exists (vector_field field) (descriptors T_config)
                /\ make T_config empty_Properties
                   = outcome_failure
                       (with_nested ("Can't init config " ++ Name T_config)
                          (ptree_bad_path field))
                /\ set (FieldDescriptor_nested name descr base T_config pointer)
                     config ptree
                   = (config,
                      throw (with_nested ("Can't init config " ++ Name T_config)
                               (ptree_bad_path field)))))).
Proof.
  split; [apply can_be_default_iff|].
  split; [intros field f Hf; destruct Hf; reflexivity|].
  intros Hall.
  assert (Hjudged : can_be_default (descriptors T_config) = true).
  { apply can_be_default_iff.
    eapply Forall_impl; [|exact Hall].
    intros f Hf. apply defaulted_or_vector_flag. exact Hf. }
  split; [exact Hjudged|].
  intros Habsent.
  assert (Hset : set (FieldDescriptor_nested name descr base T_config pointer) config ptree
                 = (v <- eval (value (make T_config empty_Properties)) ;;
                    assign pointer v)%action config).
  { simpl. rewrite Hjudged, Habsent. reflexivity. }
  split; [exact Hset|].
  intros Hsome.
  destruct (set_fields_empty_throws Hall Hsome (default_constructed T_config))
    as [partial [field [Hin Hthrows]]].
  assert (Hmake : make T_config empty_Properties
                  = outcome_failure
                      (with_nested ("Can't init config " ++ Name T_config)
                         (ptree_bad_path field))).
  { unfold make. rewrite Hthrows. reflexivity. }
  exists field. split; [exact Hin|]. split; [exact Hmake|].
  rewrite Hset. unfold bind, eval. rewrite Hmake. reflexivity.
Qed.
End NestedFields.

Lemma nested_defaultability_counts_vector_fields_witness :
  can_be_default (descriptors Example.Batch_config) = true
  /\ exists field,
       Exists (vector_field field) (descriptors Example.Batch_config)
       /\ make Example.Batch_config empty_Properties
          = outcome_failure
              (with_nested ("Can't init config " ++ Name Example.Batch_config)
                 (ptree_bad_path field))
       /\ set Example.batch_descriptor (default_constructed Example.Server_config)
            Inputs.host_only
          = (default_constructed Example.Server_config,
             throw (with_nested ("Can't init config " ++ Name Example.Batch_config)
                      (ptree_bad_path field))).
Proof.
  pose proof (@nested_defaultability_counts_vector_fields Example.Server Example.Batch
                "batch" "Batch" "Batch" Example.Batch_config Example.batch_pointer
                (default_constructed Example.Server_config) Inputs.host_only)
    as [_ [_ Hvector]].
  assert (Hall : Forall defaulted_or_vector (descriptors Example.Batch_config)).
  { constructor.
    - left. constructor.
    - constructor; [|constructor]. right. exists "items". constructor. }
  destruct (Hvector Hall) as [Hjudged Habsent].
  split; [exact Hjudged|].
  destruct (Habsent eq_refl) as [_ Hfails].
  apply Hfails.
  apply Exists_cons_tl, Exists_cons_hd. exists "items". constructor.
Defined.

(** The build of a [Batch] from [Properties{}] fails on the key of its
    vector field. *)
Example make_Batch_empty :
  make Example.Batch_config empty_Properties
  = outcome_failure (with_nested "Can't init config Batch" (ptree_bad_path "items")).
Proof. reflexivity. Qed.

(** ** Description *)

Lemma string_app_nil_r (a : string) : a ++ "" = a.
Proof.
  induction a as [|c a IH]; simpl; [reflexivity|]. rewrite IH. reflexivity.
Qed.

Lemma string_app_assoc (a b c : string) : (a ++ b) ++ c = a ++ (b ++ c).
Proof.
  induction a as [|x a IH]; simpl; [reflexivity|]. rewrite IH. reflexivity.
Qed.

Lemma concat_empty_cons (line : string) (lines : list string) :
  String.concat "" (line :: lines) = line ++ String.concat "" lines.
Proof.
  destruct lines as [|next lines]; simpl.
  - symmetry. apply string_app_nil_r.
  - reflexivity.
Qed.

Section Description.
Context {Self : Type}.

Lemma describe_loop_concat (fields : list (BaseFieldDescriptor Self))
  (prefix result : string) :
  describe_loop fields prefix result
  = result ++ String.concat "" (map (fun f => c_str prefix ++ describe f " ") fields).
Proof.
  revert result.
  induction fields as [|f rest IH]; intros result.
  - simpl. symmetry. apply string_app_nil_r.
  - cbn [describe_loop map]. rewrite IH, concat_empty_cons.
    apply string_app_assoc.
Qed.

(** What [describeFields] returns is the lines of the descriptors, each
    after [prefix], in the order of [descriptors()]. *)
Lemma describeFields_lines (cfg : CVSConfig Self) (prefix : string) :
  describeFields cfg prefix
  = String.concat "" (map (fun f => c_str prefix ++ describe f " ") (descriptors cfg)).
Proof.
  unfold describeFields. rewrite describe_loop_concat. reflexivity.
Qed.
End Description.

(** C8: [describe()] is deterministic. It takes no instance and no tree;
    its output is fixed by the name of the schema type, its description and
    the lines its registered descriptors render, so two calls for which
    these are the same (two calls on one schema type) return the same
    string, byte for byte. *)
Theorem describe_deterministic {Self Self' : Type} (first_call : CVSConfig Self)
  (second_call : CVSConfig Self') :
  Name first_call = Name second_call ->
  Description first_call = Description second_call ->
  map (fun f => describe f " ") (descriptors first_call)
  = map (fun f => describe f " ") (descriptors second_call) ->
  describe_config first_call = describe_config second_call.
Proof.
  intros Hname Hdescription Hlines.
  unfold describe_config.
  rewrite !describeFields_lines, Hname, Hdescription.
  f_equal. f_equal.
  rewrite <- (map_map (fun f => describe f " ") (fun line => c_str nl ++ line)
                (descriptors first_call)).
  rewrite <- (map_map (fun f => describe f " ") (fun line => c_str nl ++ line)
                (descriptors second_call)).
  rewrite Hlines. reflexivity.
Qed.

Lemma describe_deterministic_witness :
  describe_config Example.Limits_config = describe_config Inputs.Limits_config_again.
Proof.
  apply (@describe_deterministic Example.Limits Example.Limits Example.Limits_config
           Inputs.Limits_config_again); reflexivity.
Defined.

(** * Further properties of the descriptors *)

(** ** Required and defaulted scalars *)

Section MoreScalarFields.
Context {Self T : Type} `{Translator T}.
Variables name descr base : string.

(** X1: a required scalar field. With the key absent [set] throws
    [ptree_bad_path] for the field's name; with the key present and a leaf
    that does not convert it throws [ptree_bad_data] carrying the leaf's
    data; in both cases the instance is left as it was. With a leaf that
    converts, [set] returns and the field holds the converted value. *)
Theorem simple_field_set (pointer : member Self T) (config : Self) (ptree : Properties) :
  (find name ptree = None ->
   set (FieldDescriptor_simple name descr base pointer) config ptree
   = (config, throw (ptree_bad_path name)))
  /\ (forall child,
         find name ptree = Some child ->
         get_value_optional (T := T) child = None ->
         set (FieldDescriptor_simple name descr base pointer) config ptree
         = (config, throw (ptree_bad_data (data_of child))))
  /\ (forall child v,
         find name ptree = Some child ->
         get_value_optional child = Some v ->
         set (FieldDescriptor_simple name descr base pointer) config ptree
         = (store pointer v config, returns tt)
         /\ load pointer
              (fst (set (FieldDescriptor_simple name descr base pointer) config ptree))
            = v).
Proof.
  split; [|split].
  - intros Habsent. simpl. unfold bind, eval, get, get_child, get_child_optional.
    rewrite Habsent. reflexivity.
  - intros child Hpresent Hconv. simpl.
    unfold bind, eval, get, get_child, get_child_optional, get_value.
    rewrite Hpresent. simpl. rewrite Hconv. reflexivity.
  - intros child v Hpresent Hconv.
    assert (Hset : set (FieldDescriptor_simple name descr base pointer) config ptree
                   = (store pointer v config, returns tt)).
    { simpl. unfold bind, eval, get, get_child, get_child_optional, get_value.
      rewrite Hpresent. simpl. rewrite Hconv. reflexivity. }
    split; [exact Hset|]. rewrite Hset. simpl. apply load_store.
Qed.

(** X2: the [set] of a field declared with a default value never throws,
    whatever the tree; and when the key is present with a leaf that
    converts, the field holds the converted value, not the default. *)
Theorem default_field_set_never_throws `{Formattable T} (pointer : member Self T)
  (field_default_value : T) (config : Self) (ptree : Properties) :
  snd (set (FieldDescriptor_default name descr base pointer field_default_value)
         config ptree)
  = returns tt
  /\ (forall child v,
         find name ptree = Some child ->
         get_value_optional child = Some v ->
         load pointer
           (fst (set (FieldDescriptor_default name descr base pointer field_default_value)
                   config ptree))
         = v).
Proof.
  split; [reflexivity|].
  intros child v Hpresent Hconv. simpl.
  unfold get_or, get_optional, get_child_optional.
  rewrite Hpresent, Hconv. apply load_store.
Qed.
End MoreScalarFields.

Lemma simple_field_set_witness :
  set Example.host_descriptor Inputs.server_with_timeout Inputs.port_not_a_number
  = (Inputs.server_with_timeout, throw (ptree_bad_path "host"))
  /\ set Example.host_descriptor Inputs.server_with_timeout Nesting.host_seven
     = (store Example.host_pointer "7" Inputs.server_with_timeout, returns tt).
Proof.
  split.
  - apply (proj1 (@simple_field_set Example.Server string _ "host" "Host name"
                    "std::string" Example.host_pointer Inputs.server_with_timeout
                    Inputs.port_not_a_number)).
    reflexivity.
  - apply (proj2 (proj2 (@simple_field_set Example.Server string _ "host" "Host name"
                           "std::string" Example.host_pointer
                           Inputs.server_with_timeout Nesting.host_seven))
             (Example.leaf "7") "7"); reflexivity.
Defined.

Lemma default_field_set_never_throws_witness :
  load Example.port_pointer
    (fst (set Example.port_descriptor Inputs.server_with_timeout
            Nesting.port_eighty_one))
  = 81%Z.
Proof.
  apply (proj2 (@default_field_set_never_throws Example.Server Z _ "port" "Port" "int" _
                  Example.port_pointer 8080%Z Inputs.server_with_timeout
                  Nesting.port_eighty_one)
           (Example.leaf " 81 ") 81%Z); reflexivity.
Defined.

(** ** The elements of a vector field *)

Section Elements.
Context {T : Type} `{Translator T}.

Lemma push_back_values_pushed (container : list (string * Properties))
  (values : list T) :
  push_back_values container values
  = match push_back_values container [] with
    | inr pushed => returns (values ++ pushed)%list
    | inl e => throw e
    end.
Proof.
  revert values.
  induction container as [|[key second] rest IH]; intros values; simpl.
  - rewrite app_nil_r. reflexivity.
  - destruct (get_value second) as [e|v]; [reflexivity|].
    rewrite (IH (values ++ [v])%list), (IH [v]). simpl.
    destruct (push_back_values rest []) as [e|pushed]; [reflexivity|].
    rewrite <- app_assoc. reflexivity.
Qed.

Lemma push_back_values_step (key : string) (second : Properties) (v : T)
  (rest : list (string * Properties)) (values : list T) :
  get_value_optional second = Some v ->
  push_back_values ((key, second) :: rest) values
  = push_back_values rest (values ++ [v])%list.
Proof.
  intros Hconv. simpl. unfold get_value. rewrite Hconv. reflexivity.
Qed.

Lemma push_back_values_stop (key : string) (second : Properties)
  (rest : list (string * Properties)) (values : list T) :
  get_value_optional (T := T) second = None ->
  push_back_values ((key, second) :: rest) values
  = throw (ptree_bad_data (data_of second)).
Proof.
  intros Hconv. simpl. unfold get_value. rewrite Hconv. reflexivity.
Qed.

(** The loop returns the converted elements in the order of the container. *)
Lemma push_back_values_converts (container : list (string * Properties))
  (values : list T) :
  converts_to container values -> push_back_values container [] = returns values.
Proof.
  induction 1 as [|[key second] v rest values Hconv _ IH]; [reflexivity|].
  simpl in Hconv. rewrite (@push_back_values_step key second v rest [] Hconv).
  rewrite push_back_values_pushed, IH. reflexivity.
Qed.

(** What the loop returns is the conversion of every element. *)
Lemma push_back_values_returned (container : list (string * Properties))
  (values : list T) :
  push_back_values container [] = returns values -> converts_to container values.
Proof.
  revert values.
  induction container as [|[key second] rest IH]; intros values.
  - simpl. intros Hret. injection Hret as <-. constructor.
  - destruct (get_value_optional second) as [v|] eqn:Hconv.
    + rewrite (@push_back_values_step key second v rest [] Hconv),
        push_back_values_pushed.
      destruct (push_back_values rest []) as [e|pushed] eqn:Hrest; [discriminate|].
      intros Hret. injection Hret as <-.
      constructor; [exact Hconv|]. apply IH. reflexivity.
    + rewrite (@push_back_values_stop key second rest [] Hconv). discriminate.
Qed.

(** The first element that does not convert ends the loop. *)
Lemma push_back_values_first_failure (before after : list (string * Properties))
  (key : string) (bad : Properties) (values : list T) :
  converts_to before values ->
  get_value_optional (T := T) bad = None ->
  push_back_values (before ++ (key, bad) :: after)%list []
  = throw (ptree_bad_data (data_of bad)).
Proof.
  intros Hbefore Hbad.
  induction Hbefore as [|[key' second] v rest values Hconv _ IH].
  - apply push_back_values_stop. exact Hbad.
  - cbn [app]. simpl in Hconv.
    rewrite (@push_back_values_step key' second v _ [] Hconv).
    rewrite push_back_values_pushed, IH. reflexivity.
Qed.
End Elements.

Section MoreVectorFields.
Context {Self T : Type} `{Translator T}.
Variables name descr base : string.

(** X3: a vector field whose key is present. When every child of the
    container converts, [set] returns and the field holds the converted
    values, one per child, in the order of the tree, the children's keys
    playing no part; and whenever [set] returns, the field holds exactly
    the conversion of every child. *)
Theorem vector_field_present (pointer : member Self (list T)) (config : Self)
  (ptree container : Properties) :
  find name ptree = Some container ->
  (forall values,
      converts_to (children_of container) values ->
      set (FieldDescriptor_vector name descr base pointer) config ptree
      = (store pointer values config, returns tt)
      /\ load pointer (fst (set (FieldDescriptor_vector name descr base pointer)
                              config ptree))
         = values)
  /\ (snd (set (FieldDescriptor_vector name descr base pointer) config ptree)
      = returns tt ->
      converts_to (children_of container)
        (load pointer (fst (set (FieldDescriptor_vector name descr base pointer)
                              config ptree)))).
Proof.
  intros Hpresent.
  assert (Hset : set (FieldDescriptor_vector name descr base pointer) config ptree
                 = match push_back_values (children_of container) [] with
                   | inr values => (store pointer values config, returns tt)
                   | inl e => (config, throw e)
                   end).
  { simpl. unfold bind, eval, get_child, get_child_optional. rewrite Hpresent.
    simpl. destruct (push_back_values (children_of container) []); reflexivity. }
  rewrite Hset. split.
  - intros values Hall. rewrite (push_back_values_converts Hall). simpl.
    split; [reflexivity|apply load_store].
  - destruct (push_back_values (children_of container) []) as [e|values] eqn:Hloop;
      simpl; [discriminate|].
    intros _. rewrite load_store. apply push_back_values_returned. exact Hloop.
Qed.

(** X4: a vector field whose key is present and one of whose children does
    not convert: [set] throws [ptree_bad_data] for the first such child and
    leaves the instance as it was; the children after it are not
    converted. *)
Theorem vector_field_first_failure (pointer : member Self (list T)) (config : Self)
  (ptree container : Properties) (before after : list (string * Properties))
  (key : string) (bad : Properties) (values : list T) :
  find name ptree = Some container ->
  children_of container = (before ++ (key, bad) :: after)%list ->
  converts_to before values ->
  get_value_optional (T := T) bad = None ->
  set (FieldDescriptor_vector name descr base pointer) config ptree
  = (config, throw (ptree_bad_data (data_of bad))).
Proof.
  intros Hpresent Hsplit Hbefore Hbad.
  simpl. unfold bind, eval, get_child, get_child_optional. rewrite Hpresent.
  simpl. rewrite Hsplit, (@push_back_values_first_failure _ _ before after key bad values Hbefore Hbad).
  reflexivity.
Qed.

(** X5: an optional vector field whose key is present behaves as a vector
    field does: the converted values of all children, in order, wrapped in
    an engaged optional; or [ptree_bad_data] for the first child that does
    not convert, the instance left as it was. *)
Theorem optional_vector_present (pointer : member Self (option (list T)))
  (config : Self) (ptree container : Properties) :
  find name ptree = Some container ->
  (forall values,
      converts_to (children_of container) values ->
      set (FieldDescriptor_optional_vector name descr base pointer) config ptree
      = (store pointer (Some values) config, returns tt))
  /\ (forall before after key bad (values : list T),
         children_of container = (before ++ (key, bad) :: after)%list ->
         converts_to before values ->
         get_value_optional (T := T) bad = None ->
         set (FieldDescriptor_optional_vector name descr base pointer) config ptree
         = (config, throw (ptree_bad_data (data_of bad)))).
Proof.
  intros Hpresent. split.
  - intros values Hall. simpl. unfold get_child_optional. rewrite Hpresent.
    unfold bind, eval. rewrite (push_back_values_converts Hall). reflexivity.
  - intros before after key bad values Hsplit Hbefore Hbad.
    simpl. unfold get_child_optional. rewrite Hpresent. unfold bind, eval.
    rewrite Hsplit, (@push_back_values_first_failure _ _ before after key bad values Hbefore Hbad).
    reflexivity.
Qed.
End MoreVectorFields.

Lemma vector_field_present_witness :
  set Example.ids_descriptor Inputs.server_with_timeout Nesting.ids_four_five_six
  = (store Example.ids_pointer [4%Z; 5%Z; 6%Z] Inputs.server_with_timeout, returns tt)
  /\ load Example.ids_pointer
       (fst (set Example.ids_descriptor Inputs.server_with_timeout
               Nesting.ids_four_five_six))
     = [4%Z; 5%Z; 6%Z].
Proof.
  apply (proj1 (@vector_field_present Example.Server Z _ "ids" "Ids" "std::vector<int>"
                  Example.ids_pointer Inputs.server_with_timeout
                  Nesting.ids_four_five_six
                  (ptree "" [("", Example.leaf "4"); ("", Example.leaf "5");
                             ("", Example.leaf "6")])
                  eq_refl)).
  repeat constructor.
Defined.

Lemma vector_field_first_failure_witness :
  set Example.ids_descriptor Inputs.server_with_timeout Nesting.ids_with_a_letter
  = (Inputs.server_with_timeout, throw (ptree_bad_data "x")).
Proof.
  apply (@vector_field_first_failure Example.Server Z _ "ids" "Ids" "std::vector<int>"
           Example.ids_pointer Inputs.server_with_timeout Nesting.ids_with_a_letter
           (ptree "" [("", Example.leaf "4"); ("", Example.leaf "x");
                      ("", Example.leaf "6")])
           [("", Example.leaf "4")] [("", Example.leaf "6")] "" (Example.leaf "x")
           [4%Z]).
  - reflexivity.
  - reflexivity.
  - repeat constructor.
  - reflexivity.
Defined.

Lemma optional_vector_present_witness :
  set Example.tags_descriptor Inputs.server_with_timeout Nesting.tags_a_b
  = (store Example.tags_pointer (Some ["a"; "b"]) Inputs.server_with_timeout,
     returns tt).
Proof.
  apply (proj1 (@optional_vector_present Example.Server string _ "tags" "Tags"
                  "std::vector<std::string>" Example.tags_pointer
                  Inputs.server_with_timeout Nesting.tags_a_b
                  (ptree "" [("", Example.leaf "a"); ("", Example.leaf "b")])
                  eq_refl)).
  repeat constructor.
Defined.

(** ** Nested schemas: present key, required fields, failure chains *)

Section MoreNestedFields.
Context {Self T : Type}.
Variables name descr base : string.
Variable T_config : CVSConfig T.

(** With the key present both branches of the nested [set] build from the
    child subtree. *)
Lemma nested_set_from_child (pointer : member Self T) (config : Self)
  (ptree child : Properties) :
  find name ptree = Some child ->
  set (FieldDescriptor_nested name descr base T_config pointer) config ptree
  = (v <- eval (value (make T_config child)) ;; assign pointer v)%action config.
Proof.
  intros Hpresent. simpl. unfold get_child, get_child_optional. rewrite Hpresent.
  destruct (can_be_default (descriptors T_config)); reflexivity.
Qed.

(** X6: a nested-schema field whose key is present is built from the child
    subtree, whether or not the nested type was judged fully defaultable:
    when every field of the nested type is set, the field holds the built
    instance; when one of them throws [cause], [set] throws the failure of
    [T::make], the message naming the nested type chained to [cause], and
    the instance is left as it was. *)
Theorem nested_field_present (pointer : member Self T) (config : Self)
  (ptree child : Properties) :
  find name ptree = Some child ->
  (forall built,
      set_fields (descriptors T_config) child (default_constructed T_config)
      = (built, returns tt) ->
      set (FieldDescriptor_nested name descr base T_config pointer) config ptree
      = (store pointer built config, returns tt))
  /\ (forall partial cause,
         set_fields (descriptors T_config) child (default_constructed T_config)
         = (partial, throw cause) ->
         set (FieldDescriptor_nested name descr base T_config pointer) config ptree
         = (config,
            throw (with_nested ("Can't init config " ++ Name T_config) cause))).
Proof.
  intros Hpresent.
  rewrite (nested_set_from_child pointer config ptree Hpresent).
  unfold bind, eval, make. split.
  - intros built Hbuilt. rewrite Hbuilt. reflexivity.
  - intros partial cause Hthrows. rewrite Hthrows. reflexivity.
Qed.

(** X7: a nested-schema field whose nested type has a field answering
    [false] both to [has_default()] and to [is_optional()] (a required
    scalar, or itself a nested schema): with the key absent [set] throws
    [ptree_bad_path] for the field's name and [T::make] is not called, so
    this holds even for a nested type that [T::make(Properties{})] would
    build. *)
Theorem nested_field_absent_key_required (pointer : member Self T) (config : Self)
  (ptree : Properties) :
  Exists (fun f => has_default f = false /\ is_optional f = false) (descriptors T_config) ->
  find name ptree = None ->
  set (FieldDescriptor_nested name descr base T_config pointer) config ptree
  = (config, throw (ptree_bad_path name)).
Proof.
  intros Hsome Habsent.
  assert (Hjudged : can_be_default (descriptors T_config) = false).
  { destruct (can_be_default (descriptors T_config)) eqn:Hcan; [|reflexivity].
    apply can_be_default_iff in Hcan.
    apply Exists_exists in Hsome as [f [Hin [Hdefault Hoptional]]].
    rewrite Forall_forall in Hcan. specialize (Hcan f Hin).
    rewrite Hdefault, Hoptional in Hcan. destruct Hcan; discriminate. }
  simpl. rewrite Hjudged. unfold bind, eval, get_child, get_child_optional.
  rewrite Habsent. reflexivity.
Qed.

(** X8: an optional nested-schema field. With the key absent [set] returns
    and the field holds [std::nullopt], whatever the fields of the nested
    type are; with the key present the field holds the instance built from
    the child subtree, or [set] throws the failure of [T::make] and leaves
    the instance as it was. *)
Theorem optional_nested_field_set (pointer : member Self (option T)) (config : Self)
  (ptree : Properties) :
  (find name ptree = None ->
   set (FieldDescriptor_optional_nested name descr base T_config pointer) config ptree
   = (store pointer None config, returns tt))
  /\ (forall child built,
         find name ptree = Some child ->
         set_fields (descriptors T_config) child (default_constructed T_config)
         = (built, returns tt) ->
         set (FieldDescriptor_optional_nested name descr base T_config pointer)
           config ptree
         = (store pointer (Some built) config, returns tt))
  /\ (forall child partial cause,
         find name ptree = Some child ->
         set_fields (descriptors T_config) child (default_constructed T_config)
         = (partial, throw cause) ->
         set (FieldDescriptor_optional_nested name descr base T_config pointer)
           config ptree
         = (config,
            throw (with_nested ("Can't init config " ++ Name T_config) cause))).
Proof.
  split; [|split].
  - intros Habsent. simpl. rewrite Habsent. reflexivity.
  - intros child built Hpresent Hbuilt. simpl. rewrite Hpresent.
    unfold bind, eval, make. rewrite Hbuilt. reflexivity.
  - intros child partial cause Hpresent Hthrows. simpl. rewrite Hpresent.
    unfold bind, eval, make. rewrite Hthrows. reflexivity.
Qed.

(** X9: a failure inside a nested schema surfaces from the outer [make] as
    a chain of two messages: when the descriptors before a nested field
    have returned, the nested key is present and a field of the nested
    type throws [cause], the outer [make] fails with the outer schema's
    message, chained to the nested schema's message, chained to [cause]. *)
Theorem make_nested_failure_chain (cfg : CVSConfig Self) (data child : Properties)
  (before after : list (BaseFieldDescriptor Self)) (pointer : member Self T)
  (result : Self) (partial : T) (cause : exception) :
  descriptors cfg
  = (before ++ FieldDescriptor_nested name descr base T_config pointer :: after)%list ->
  set_fields before data (default_constructed cfg) = (result, returns tt) ->
  find name data = Some child ->
  set_fields (descriptors T_config) child (default_constructed T_config)
  = (partial, throw cause) ->
  make cfg data
  = outcome_failure
      (with_nested ("Can't init config " ++ Name cfg)
         (with_nested ("Can't init config " ++ Name T_config) cause)).
Proof.
  intros Hsplit Hbefore Hpresent Hthrows.
  unfold make at 1. rewrite Hsplit, set_fields_app, Hbefore.
  cbn [set_fields]. unfold bind at 1.
  rewrite (nested_set_from_child pointer result data Hpresent).
  unfold bind, eval, make. rewrite Hthrows. reflexivity.
Qed.
End MoreNestedFields.

Lemma nested_field_present_witness :
  set Nesting.wrapper_descriptor (default_constructed Nesting.Deployment_config)
    Nesting.level_nine
  = (store Nesting.wrapper_pointer
       {| Nesting.inner_limits := {| Example.level := 9; Example.label := None |} |}
       (default_constructed Nesting.Deployment_config),
     returns tt).
Proof.
  apply (proj1 (@nested_field_present Nesting.Deployment Nesting.Wrapper "wrapper"
                  "Wrapper" "Wrapper" Nesting.Wrapper_config Nesting.wrapper_pointer
                  (default_constructed Nesting.Deployment_config) Nesting.level_nine
                  (ptree "" [("limits", ptree "" [("level", Example.leaf "9")])])
                  eq_refl)).
  reflexivity.
Defined.

Lemma nested_field_absent_key_required_witness :
  make Nesting.Wrapper_config empty_Properties
  = outcome_value
      {| Nesting.inner_limits := {| Example.level := 3; Example.label := None |} |}
  /\ set Nesting.wrapper_descriptor (default_constructed Nesting.Deployment_config)
       Nesting.replicas_only
     = (default_constructed Nesting.Deployment_config, throw (ptree_bad_path "wrapper")).
Proof.
  split; [reflexivity|].
  apply (@nested_field_absent_key_required Nesting.Deployment Nesting.Wrapper "wrapper"
           "Wrapper" "Wrapper" Nesting.Wrapper_config Nesting.wrapper_pointer
           (default_constructed Nesting.Deployment_config) Nesting.replicas_only).
  - apply Exists_cons_hd. split; reflexivity.
  - reflexivity.
Defined.

Lemma optional_nested_field_set_witness :
  set Nesting.spare_descriptor (default_constructed Nesting.Deployment_config)
    Nesting.replicas_only
  = (store Nesting.spare_pointer None (default_constructed Nesting.Deployment_config),
     returns tt)
  /\ set Nesting.spare_descriptor (default_constructed Nesting.Deployment_config)
       Nesting.spare_labelled
     = (store Nesting.spare_pointer
          (Some {| Nesting.inner_limits :=
                     {| Example.level := 3; Example.label := Some "s" |} |})
          (default_constructed Nesting.Deployment_config),
        returns tt).
Proof.
  split.
  - apply (proj1 (@optional_nested_field_set Nesting.Deployment Nesting.Wrapper "spare"
                    "Spare" "Wrapper" Nesting.Wrapper_config Nesting.spare_pointer
                    (default_constructed Nesting.Deployment_config)
                    Nesting.replicas_only)).
    reflexivity.
  - apply (proj1 (proj2 (@optional_nested_field_set Nesting.Deployment Nesting.Wrapper
                           "spare" "Spare" "Wrapper" Nesting.Wrapper_config
                           Nesting.spare_pointer
                           (default_constructed Nesting.Deployment_config)
                           Nesting.spare_labelled))
             (ptree "" [("limits", ptree "" [("label", Example.leaf "s")])]));
      reflexivity.
Defined.

Lemma make_nested_failure_chain_witness :
  make Example.Server_config Nesting.batch_without_items
  = outcome_failure
      (with_nested "Can't init config Server"
         (with_nested "Can't init config Batch" (ptree_bad_path "items"))).
Proof.
  apply (@make_nested_failure_chain Example.Server Example.Batch "batch" "Batch" "Batch"
           Example.Batch_config Example.Server_config Nesting.batch_without_items
           (Example.leaf "")
           [Example.host_descriptor; Example.port_descriptor; Example.timeout_descriptor;
            Example.tags_descriptor; Example.ids_descriptor; Example.limits_descriptor;
            Example.backup_descriptor]
           [] Example.batch_pointer
           (fst (set_fields
                   [Example.host_descriptor; Example.port_descriptor;
                    Example.timeout_descriptor; Example.tags_descriptor;
                    Example.ids_descriptor; Example.limits_descriptor;
                    Example.backup_descriptor]
                   Nesting.batch_without_items
                   (default_constructed Example.Server_config)))
           (store Example.size_pointer 1%Z (default_constructed Example.Batch_config))
           (ptree_bad_path "items")); reflexivity.
Defined.

(** ** What [make] leaves alone *)

Section MakeFrame.
Context {Self G : Type}.
Variable q : member Self G.

(** A run of the loop over descriptors bound to other members is not seen
    through [q], whether the loop ended or an exception left it. *)
Lemma set_fields_frame (fields : list (BaseFieldDescriptor Self)) (data : Properties)
  (start : Self) :
  Forall (bound_elsewhere q) fields ->
  load q (fst (set_fields fields data start)) = load q start.
Proof.
  intros Hall. revert start.
  induction Hall as [|field rest [F [p [Hbound Hother]]] _ IH]; intros start.
  - reflexivity.
  - cbn [set_fields]. unfold bind.
    assert (Hfield : load q (fst (set field start data)) = load q start).
    { destruct (set_assigns_through_pointer start data Hbound) as [Hsame|[v Hstored]].
      - rewrite Hsame. reflexivity.
      - rewrite Hstored. apply Hother. }
    destruct (set field start data) as [result [e|[]]]; simpl in Hfield |- *.
    + exact Hfield.
    + rewrite IH. exact Hfield.
Qed.

(** X10: a data member that no descriptor of the schema is bound to has,
    in the instance [make] returns, the value it had after default
    construction. *)
Theorem make_keeps_unbound_member (cfg : CVSConfig Self) (data : Properties)
  (result : Self) :
  Forall (bound_elsewhere q) (descriptors cfg) ->
  make cfg data = outcome_value result ->
  load q result = load q (default_constructed cfg).
Proof.
  intros Hall Hmake.
  pose proof (set_fields_frame data (default_constructed cfg) Hall) as Hframe.
  unfold make in Hmake.
  destruct (set_fields (descriptors cfg) data (default_constructed cfg))
    as [final [e|[]]]; [discriminate Hmake|].
  injection Hmake as <-. exact Hframe.
Qed.

(** X11: in the instance [make] returns, a field holds what its own
    descriptor stored, provided the descriptors that come after it in the
    declaration order are bound to other members. *)
Theorem make_field_holds_assigned_value (cfg : CVSConfig Self) (data : Properties)
  (before after : list (BaseFieldDescriptor Self)) (field : BaseFieldDescriptor Self)
  (reached result : Self) :
  descriptors cfg = (before ++ field :: after)%list ->
  set_fields before data (default_constructed cfg) = (reached, returns tt) ->
  Forall (bound_elsewhere q) after ->
  make cfg data = outcome_value result ->
  load q result = load q (fst (set field reached data)).
Proof.
  intros Hsplit Hbefore Hafter Hmake.
  unfold make in Hmake. rewrite Hsplit, set_fields_app, Hbefore in Hmake.
  cbn [set_fields] in Hmake. unfold bind in Hmake.
  destruct (set field reached data) as [stored [e|[]]]; [discriminate Hmake|].
  pose proof (set_fields_frame data stored Hafter) as Hframe.
  destruct (set_fields after data stored) as [final [e|[]]]; [discriminate Hmake|].
  injection Hmake as <-. exact Hframe.
Qed.
End MakeFrame.

Lemma make_keeps_unbound_member_witness :
  load Nesting.revision_pointer
    {| Nesting.replicas := 2;
       Nesting.wrapper :=
         {| Nesting.inner_limits := {| Example.level := 9; Example.label := None |} |};
       Nesting.spare := None;
       Nesting.revision := 42 |}
  = load Nesting.revision_pointer (default_constructed Nesting.Deployment_config).
Proof.
  apply (@make_keeps_unbound_member Nesting.Deployment Z Nesting.revision_pointer
           Nesting.Deployment_config Nesting.level_nine).
  - repeat constructor.
    + exists Z, Nesting.replicas_pointer. split; [apply bound_default|].
      intros v s. reflexivity.
    + exists Nesting.Wrapper, Nesting.wrapper_pointer. split; [apply bound_nested|].
      intros v s. reflexivity.
    + exists (option Nesting.Wrapper), Nesting.spare_pointer.
      split; [apply bound_optional_nested|]. intros v s. reflexivity.
  - reflexivity.
Defined.

Lemma make_field_holds_assigned_value_witness :
  load Nesting.replicas_pointer
    {| Nesting.replicas := 5;
       Nesting.wrapper :=
         {| Nesting.inner_limits := {| Example.level := 9; Example.label := None |} |};
       Nesting.spare := None;
       Nesting.revision := 42 |}
  = load Nesting.replicas_pointer
      (fst (set Nesting.replicas_descriptor
              (default_constructed Nesting.Deployment_config)
              Nesting.replicas_and_level)).
Proof.
  apply (@make_field_holds_assigned_value Nesting.Deployment Z Nesting.replicas_pointer
           Nesting.Deployment_config Nesting.replicas_and_level []
           [Nesting.wrapper_descriptor; Nesting.spare_descriptor]
           Nesting.replicas_descriptor
           (default_constructed Nesting.Deployment_config)).
  - reflexivity.
  - reflexivity.
  - repeat constructor.
    + exists Nesting.Wrapper, Nesting.wrapper_pointer. split; [apply bound_nested|].
      intros v s. reflexivity.
    + exists (option Nesting.Wrapper), Nesting.spare_pointer.
      split; [apply bound_optional_nested|]. intros v s. reflexivity.
  - reflexivity.
Defined.

(** ** Keys the schema does not declare *)

(** A descriptor reads the tree only through the first child under its own
    field name. *)
Lemma set_reads_own_key {Self : Type} (name : string) (d : BaseFieldDescriptor Self)
  (config : Self) (ptree ptree' : Properties) :
  field_named name d ->
  find name ptree = find name ptree' ->
  set d config ptree = set d config ptree'.
Proof.
  intros Hnamed Hsame.
  destruct Hnamed; simpl;
    unfold get, get_or, get_optional, get_child, get_child_optional;
    rewrite Hsame; reflexivity.
Qed.

(** X12: the outcome of [make] depends on the tree only through the first
    child under each declared field name: two trees that agree there give
    the same outcome, so children under other keys, repeated keys after
    the first and the data of the root are ignored. *)
Theorem make_ignores_undeclared_keys {Self : Type} (cfg : CVSConfig Self)
  (data data' : Properties) :
  Forall (fun d => exists name, field_named name d /\ find name data = find name data')
    (descriptors cfg) ->
  make cfg data = make cfg data'.
Proof.
  intros Hall. unfold make.
  assert (Hloop : forall start,
             set_fields (descriptors cfg) data start
             = set_fields (descriptors cfg) data' start).
  { induction Hall as [|field rest [name [Hnamed Hsame]] _ IH]; intros start.
    - reflexivity.
    - cbn [set_fields]. unfold bind.
      rewrite (@set_reads_own_key _ name field start data data' Hnamed Hsame).
      destruct (set field start data') as [result [e|[]]]; [reflexivity|apply IH]. }
  rewrite Hloop. reflexivity.
Qed.

Lemma make_ignores_undeclared_keys_witness :
  make Nesting.Deployment_config Nesting.level_nine
  = make Nesting.Deployment_config Nesting.level_nine_and_more.
Proof.
  apply (@make_ignores_undeclared_keys Nesting.Deployment Nesting.Deployment_config
           Nesting.level_nine Nesting.level_nine_and_more).
  repeat constructor.
  - exists "replicas". split; [apply named_default|reflexivity].
  - exists "wrapper". split; [apply named_nested|reflexivity].
  - exists "spare". split; [apply named_optional_nested|reflexivity].
Defined.

(** ** The text of a description *)

Lemma string_length_app (a b : string) :
  String.length (a ++ b) = String.length a + String.length b.
Proof.
  induction a as [|c a IH]; simpl; [reflexivity|]. rewrite IH. reflexivity.
Qed.

Lemma spaces_length (k : nat) :
  String.length (string_of_list_ascii (repeat " "%char k)) = k.
Proof.
  induction k as [|k IH]; simpl; [reflexivity|]. rewrite IH. reflexivity.
Qed.

Lemma pad_left_aligned_length (n : nat) (s : string) :
  String.length (pad_left_aligned n s) = Nat.max n (String.length s).
Proof.
  unfold pad_left_aligned. rewrite string_length_app, spaces_length. lia.
Qed.

Lemma no_nul_app (a b : string) : no_nul (a ++ b) = no_nul a && no_nul b.
Proof.
  induction a as [|c a IH]; simpl; [reflexivity|].
  rewrite IH. apply andb_assoc.
Qed.

Lemma c_str_no_nul (s : string) : no_nul s = true -> c_str s = s.
Proof.
  induction s as [|c s IH]; simpl; [reflexivity|].
  intros Hs. apply andb_true_iff in Hs as [Hc Hrest].
  destruct (Ascii.eqb c zero); [discriminate Hc|].
  rewrite (IH Hrest). reflexivity.
Qed.

(** X13: the columns of a field line. When the field name and the base
    type have at most 10 characters, the optionality text at most 9 and
    the default text at most 10, the label [Description:] starts 43
    characters after the prefix, so the lines of such fields are aligned. *)
Theorem description_format_columns
  (prefix name base_type optional default description : string) :
  String.length name <= 10 ->
  String.length base_type <= 10 ->
  String.length optional <= 9 ->
  String.length default <= 10 ->
  exists columns,
    String.length columns = 43
    /\ description_format prefix name base_type optional default description
       = prefix ++ columns ++ "Description: " ++ description.
Proof.
  intros Hname Hbase Hoptional Hdefault.
  exists (pad_left_aligned 10 name ++ " " ++ pad_left_aligned 10 base_type ++ " "
          ++ pad_left_aligned 9 optional ++ " " ++ pad_left_aligned 10 default ++ " ").
  split.
  - repeat rewrite string_length_app. repeat rewrite pad_left_aligned_length.
    change (String.length " ") with 1. lia.
  - unfold description_format. repeat rewrite string_app_assoc. reflexivity.
Qed.

Lemma description_format_columns_witness :
  exists columns,
    String.length columns = 43
    /\ description_format " " "port" "int" default_str (format 8080%Z) "Port"
       = " " ++ columns ++ "Description: " ++ "Port".
Proof.
  apply (@description_format_columns " " "port" "int" default_str (format 8080%Z)
           "Port"); simpl; lia.
Defined.

Section MoreDescription.
Context {Self : Type}.

(** X14: what [describe()] returns: the name of the schema type, the line
    of its description, the line [Fields:], and then one line per
    registered descriptor, in declaration order, each rendered with a
    prefix of one space. *)
Theorem describe_config_lines (cfg : CVSConfig Self) :
  describe_config cfg
  = Name cfg ++ nl ++ "Description: " ++ Description cfg ++ nl ++ "Fields:"
      ++ String.concat "" (map (fun f => nl ++ describe f " ") (descriptors cfg)).
Proof.
  unfold describe_config. rewrite describeFields_lines.
  repeat rewrite string_app_assoc. reflexivity.
Qed.

Variables name descr base : string.

(** X15: the text a nested-schema descriptor renders, for a prefix without
    NUL: its own line, a line with the prefix, the field name and
    [fields:], and then the lines of the nested type's fields, each after
    the prefix and one more space, and each rendered with a prefix of one
    space of its own. A nested field of the nested type is rendered the
    same way, from the prefix of one space, so its fields are indented as
    those of its parent. *)
Theorem nested_describe_lines {T : Type} (T_config : CVSConfig T)
  (pointer : member Self T) (optional_pointer : member Self (option T))
  (prefix : string) :
  no_nul prefix = true ->
  describe (FieldDescriptor_nested name descr base T_config pointer) prefix
  = description_format prefix name base "" "" descr
      ++ nl ++ prefix ++ name ++ " fields:"
      ++ String.concat ""
           (map (fun f => nl ++ prefix ++ " " ++ describe f " ") (descriptors T_config))
  /\ describe (FieldDescriptor_optional_nested name descr base T_config optional_pointer)
       prefix
     = description_format prefix name base optional_str "" descr
         ++ nl ++ prefix ++ name ++ " fields:"
         ++ String.concat ""
              (map (fun f => nl ++ prefix ++ " " ++ describe f " ")
                 (descriptors T_config)).
Proof.
  intros Hprefix.
  assert (Hc : c_str (nl ++ prefix ++ " ") = nl ++ prefix ++ " ").
  { apply c_str_no_nul. rewrite !no_nul_app, Hprefix. reflexivity. }
  assert (Hlines : describeFields T_config (nl ++ prefix ++ " ")
                   = String.concat ""
                       (map (fun f => nl ++ prefix ++ " " ++ describe f " ")
                          (descriptors T_config))).
  { rewrite describeFields_lines, Hc. f_equal. apply map_ext. intros f.
    repeat rewrite string_app_assoc. reflexivity. }
  split; [unfold FieldDescriptor_nested|unfold FieldDescriptor_optional_nested];
    cbn [describe]; rewrite Hlines; repeat rewrite string_app_assoc; reflexivity.
Qed.
End MoreDescription.

Lemma nested_describe_lines_witness :
  describe Nesting.wrapper_descriptor " "
  = description_format " " "wrapper" "Wrapper" "" "" "Wrapper"
      ++ nl ++ " " ++ "wrapper" ++ " fields:"
      ++ String.concat ""
           (map (fun f => nl ++ " " ++ " " ++ describe f " ")
              (descriptors Nesting.Wrapper_config)).
Proof.
  apply (proj1 (@nested_describe_lines Nesting.Deployment "wrapper" "Wrapper" "Wrapper"
                  Nesting.Wrapper Nesting.Wrapper_config Nesting.wrapper_pointer
                  Nesting.spare_pointer " " eq_refl)).
Defined.

(** ** A nested schema left out of the tree *)

(** The value a member has after the loop of [make] is the one it had right
    after its own descriptor's [set], when the descriptors that follow are
    bound to other members. *)
Lemma set_fields_field_value {Self G : Type} (q : member Self G)
  (before after : list (BaseFieldDescriptor Self)) (field : BaseFieldDescriptor Self)
  (data : Properties) (start built : Self) :
  set_fields (before ++ field :: after)%list data start = (built, returns tt) ->
  Forall (bound_elsewhere q) after ->
  exists reached,
    set_fields before data start = (reached, returns tt)
    /\ load q built = load q (fst (set field reached data)).
Proof.
  intros Hloop Hafter. rewrite set_fields_app in Hloop.
  destruct (set_fields before data start) as [reached [e|[]]]; [discriminate Hloop|].
  exists reached. split; [reflexivity|].
  cbn [set_fields] in Hloop. unfold bind in Hloop.
  destruct (set field reached data) as [stored [e|[]]]; [discriminate Hloop|].
  pose proof (set_fields_frame data stored Hafter) as Hframe.
  rewrite Hloop in Hframe. exact Hframe.
Qed.

Section NestedDefaulted.
Context {Self T : Type}.
Variables name descr base : string.
Variable T_config : CVSConfig T.
Variable pointer : member Self T.

(** C7, as the code has it: a nested-schema field whose nested type has
    only fields declared with a default value or declared optional
    (optional scalar, optional vector, optional nested schema), set from a
    tree without the nested key: [set] returns and the field holds the
    instance [built] that [T::make(Properties{})] returned. That instance
    is fully built: every field of the nested type was set from the empty
    tree, so that, the fields declared after it being bound to other
    members, a field declared with a default value holds its default, an
    optional vector and an optional nested schema hold [std::nullopt], and
    an optional scalar, which no other descriptor is bound to, is as
    default construction left it. *)
Theorem nested_field_absent_key_defaulted (config : Self) (ptree : Properties) :
  Forall defaulted_or_optional (descriptors T_config) ->
  find name ptree = None ->
  exists built,
    set_fields (descriptors T_config) empty_Properties (default_constructed T_config)
    = (built, returns tt)
    /\ make T_config empty_Properties = outcome_value built
    /\ set (FieldDescriptor_nested name descr base T_config pointer) config ptree
       = (store pointer built config, returns tt)
    /\ load pointer
         (fst (set (FieldDescriptor_nested name descr base T_config pointer) config ptree))
       = built
    /\ (forall before after n d b F (tr : Translator F) (fm : Formattable F)
               (p : member T F) (dflt : F),
           descriptors T_config
           = (before ++ FieldDescriptor_default n d b p dflt :: after)%list ->
           Forall (bound_elsewhere p) after ->
           load p built = dflt)
    /\ (forall before after n d b F (tr : Translator F) (p : member T (option (list F))),
           descriptors T_config
           = (before ++ FieldDescriptor_optional_vector n d b p :: after)%list ->
           Forall (bound_elsewhere p) after ->
           load p built = None)
    /\ (forall before after n d b U (U_config : CVSConfig U) (p : member T (option U)),
           descriptors T_config
           = (before ++ FieldDescriptor_optional_nested n d b U_config p :: after)%list ->
           Forall (bound_elsewhere p) after ->
           load p built = None)
    /\ (forall before after n d b F (tr : Translator F) (p : member T (option F)),
           descriptors T_config
           = (before ++ FieldDescriptor_optional n d b p :: after)%list ->
           Forall (bound_elsewhere p) before ->
           Forall (bound_elsewhere p) after ->
           load p built = load p (default_constructed T_config)).
Proof.
  intros Hall Habsent.
  destruct (set_fields_empty_returns Hall (default_constructed T_config))
    as [built Hbuilt].
  assert (Hmake : make T_config empty_Properties = outcome_value built).
  { unfold make. rewrite Hbuilt. reflexivity. }
  assert (Hjudged : can_be_default (descriptors T_config) = true).
  { apply can_be_default_iff.
    eapply Forall_impl; [|exact Hall].
    intros f Hf. apply defaulted_or_optional_flag. exact Hf. }
  assert (Hset : set (FieldDescriptor_nested name descr base T_config pointer) config ptree
                 = (store pointer built config, returns tt)).
  { simpl. rewrite Hjudged, Habsent. unfold bind, eval. rewrite Hmake. reflexivity. }
  exists built.
  split; [exact Hbuilt|]. split; [exact Hmake|]. split; [exact Hset|].
  split; [rewrite Hset; simpl; apply load_store|].
  split; [|split; [|split]].
  - intros before after n d b F tr fm p dflt Hsplit Hafter.
    rewrite Hsplit in Hbuilt.
    destruct (@set_fields_field_value T _ p before after _ empty_Properties
                (default_constructed T_config) built Hbuilt Hafter)
      as [reached [_ Hvalue]].
    rewrite Hvalue. simpl. apply load_store.
  - intros before after n d b F tr p Hsplit Hafter.
    rewrite Hsplit in Hbuilt.
    destruct (@set_fields_field_value T _ p before after _ empty_Properties
                (default_constructed T_config) built Hbuilt Hafter)
      as [reached [_ Hvalue]].
    rewrite Hvalue. simpl. apply load_store.
  - intros before after n d b U U_config p Hsplit Hafter.
    rewrite Hsplit in Hbuilt.
    destruct (@set_fields_field_value T _ p before after _ empty_Properties
                (default_constructed T_config) built Hbuilt Hafter)
      as [reached [_ Hvalue]].
    rewrite Hvalue. simpl. apply load_store.
  - intros before after n d b F tr p Hsplit Hbefore Hafter.
    rewrite Hsplit in Hbuilt.
    destruct (@set_fields_field_value T _ p before after _ empty_Properties
                (default_constructed T_config) built Hbuilt Hafter)
      as [reached [Hreached Hvalue]].
    rewrite Hvalue. simpl.
    pose proof (set_fields_frame empty_Properties (default_constructed T_config) Hbefore)
      as Hframe.
    rewrite Hreached in Hframe. exact Hframe.
Qed.
End NestedDefaulted.

(** C7 fails on the code for nested types whose fields can all be left out
    of a tree and yet are not all declared with a default value or declared
    optional. Every field of [Wrapper] can be set from a tree without any
    value (its one field is a nested [Limits], itself fully defaulted, and
    [Wrapper::make(Properties{})] succeeds), but a [Deployment] tree
    without the key [wrapper] makes [set] throw. Likewise every field of
    [Batch] answers [true] to [has_default()] or to [is_optional()], but a
    [Server] tree without the key [batch] makes [set] throw. *)
Lemma nested_field_absent_key_counterexample :
  (Forall (fun f => forall config,
               exists config', set f config empty_Properties = (config', returns tt))
     (descriptors Nesting.Wrapper_config)
   /\ (exists built, make Nesting.Wrapper_config empty_Properties = outcome_value built)
   /\ find "wrapper" Nesting.replicas_only = None
   /\ set Nesting.wrapper_descriptor (default_constructed Nesting.Deployment_config)
        Nesting.replicas_only
      = (default_constructed Nesting.Deployment_config, throw (ptree_bad_path "wrapper")))
  /\ (Forall (fun f => has_default f = true \/ is_optional f = true)
        (descriptors Example.Batch_config)
      /\ find "batch" Inputs.host_only = None
      /\ set Example.batch_descriptor (default_constructed Example.Server_config)
           Inputs.host_only
         = (default_constructed Example.Server_config,
            throw (with_nested "Can't init config Batch" (ptree_bad_path "items")))).
Proof.
  split.
  - split; [|split; [|split]].
    + constructor; [|constructor]. intros config. eexists. reflexivity.
    + eexists. reflexivity.
    + reflexivity.
    + reflexivity.
  - split; [|split].
    + constructor; [left; reflexivity|].
      constructor; [right; reflexivity|constructor].
    + reflexivity.
    + reflexivity.
Qed.

Lemma nested_field_absent_key_defaulted_witness :
  exists built,
    make Example.Limits_config empty_Properties = outcome_value built
    /\ set Example.limits_descriptor (default_constructed Example.Server_config)
         Inputs.host_only
       = (store Example.limits_pointer built (default_constructed Example.Server_config),
          returns tt)
    /\ load Example.level_pointer built = 3%Z
    /\ load Example.label_pointer built = None.
Proof.
  destruct (@nested_field_absent_key_defaulted Example.Server Example.Limits "limits"
              "Limits" "Limits" Example.Limits_config Example.limits_pointer
              (default_constructed Example.Server_config) Inputs.host_only)
    as [built [_ [Hmake [Hset [_ [Hdefault [_ [_ Hoptional]]]]]]]].
  - repeat constructor.
  - reflexivity.
  - exists built. split; [exact Hmake|]. split; [exact Hset|]. split.
    + apply (Hdefault [] [Example.label_descriptor] "level" "Level" "int" Z _ _
               Example.level_pointer 3%Z eq_refl).
      constructor; [|constructor].
      exists (option string), Example.label_pointer.
      split; [apply bound_optional|]. intros v s. reflexivity.
    + rewrite (Hoptional [Example.level_descriptor] [] "label" "Label" "std::string"
                 string _ Example.label_pointer eq_refl).
      * reflexivity.
      * constructor; [|constructor].
        exists Z, Example.level_pointer.
        split; [apply bound_default|]. intros v s. reflexivity.
      * constructor.
Defined.
